(** * Short-link backend: a model of [src/index.js]

    The Express handlers of the service are embedded as sequences of atomic
    database statements ([task]), the [links] table as a list of rows.  Each
    [await pool.query(...)] of the source is one [Await] node: the statement
    runs atomically against the table, and the handler resumes with its
    result.  Running a handler alone is [run]; running several handlers with
    their statements interleaved is [run_sched]. *)

From Stdlib Require Import ZArith List Bool Ascii String Lia.
From Stdlib Require Import Strings.Byte.
From Stdlib Require Import DecimalString Sorting.Sorted Sorting.Permutation.
Import ListNotations.

Local Open Scope string_scope.
Local Open Scope Z_scope.

(** ** Characters and strings

    Strings are sequences of 8-bit characters.  Upper- and lower-casing act
    on the ASCII letters, which is what JavaScript's [toUpperCase] /
    [toLowerCase] and SQL's [LOWER] do on ASCII text; on other text the
    source's functions follow Unicode and the database's locale, and the
    model does not speak for them. *)

Module Chars.

Definition in_range (lo hi c : ascii) : bool :=
  ((nat_of_ascii lo <=? nat_of_ascii c)%nat
   && (nat_of_ascii c <=? nat_of_ascii hi)%nat)%bool.

Definition is_lower (c : ascii) : bool := in_range "a" "z" c.
Definition is_upper (c : ascii) : bool := in_range "A" "Z" c.
Definition is_digit (c : ascii) : bool := in_range "0" "9" c.

(** The character class [[a-zA-Z0-9]]. *)
Definition is_alnum (c : ascii) : bool :=
  (is_lower c || is_upper c || is_digit c)%bool.

Definition to_upper (c : ascii) : ascii :=
  if is_lower c then ascii_of_nat (nat_of_ascii c - 32) else c.

Definition to_lower (c : ascii) : ascii :=
  if is_upper c then ascii_of_nat (nat_of_ascii c + 32) else c.

End Chars.

Fixpoint string_map (f : ascii -> ascii) (s : string) : string :=
  match s with
  | EmptyString => EmptyString
  | String c s' => String (f c) (string_map f s')
  end.

Fixpoint string_forall (p : ascii -> bool) (s : string) : bool :=
  match s with
  | EmptyString => true
  | String c s' => (p c && string_forall p s')%bool
  end.

(** [s.toUpperCase()], [s.toLowerCase()] and SQL [LOWER(s)]. *)
Definition toUpperCase (s : string) : string := string_map Chars.to_upper s.
Definition toLowerCase (s : string) : string := string_map Chars.to_lower s.

(** [s.startsWith(p)]. *)
Definition startsWith (s p : string) : bool := String.prefix p s.

(** [s.slice(0, n)] for [0 <= n]. *)
Definition slice0 (n : nat) (s : string) : string := String.substring 0 n s.

(** [/^[a-zA-Z0-9]+$/.test(s)]: one or more characters, all of the class. *)
Definition alnum_plus (s : string) : bool :=
  match s with
  | EmptyString => false
  | String _ _ => string_forall Chars.is_alnum s
  end.

(** ** JSON values of the request body

    [express.json()] hands the handler arbitrary JSON.  The scalars are
    modelled: numbers are the integer ones, printed by [String(n)] in plain
    decimal notation, which is what JavaScript does up to magnitude
    2^53 - 1; arrays, objects and other numbers are left out, and a result
    about every value of this type is a result about scalar bodies. *)

Inductive jsval : Type :=
| JUndefined
| JNull
| JBool (b : bool)
| JNum (n : Z)
| JStr (s : string).

(** JavaScript truthiness, as used by [!x] and [x || y]. *)
Definition truthy (v : jsval) : bool :=
  match v with
  | JUndefined | JNull => false
  | JBool b => b
  | JNum n => negb (n =? 0)
  | JStr s => negb (String.eqb s "")
  end.

(** [typeof v === 'string']. *)
Definition is_string (v : jsval) : bool :=
  match v with JStr _ => true | _ => false end.

(** [String(v)], the coercion applied by [RegExp.prototype.test] and by the
    database driver to a query parameter. *)
Definition js_to_string (v : jsval) : string :=
  match v with
  | JUndefined => "undefined"
  | JNull => "null"
  | JBool true => "true"
  | JBool false => "false"
  | JNum n => NilZero.string_of_int (Z.to_int n)
  | JStr s => s
  end.

(** [v.length > n]: only a string has a [length]; on a number or a boolean
    the property is [undefined] and the comparison is false. *)
Definition js_length_gt (v : jsval) (n : nat) : bool :=
  match v with
  | JStr s => (n <? String.length s)%nat
  | _ => false
  end.

(** ** Code generator *)

(** [buf.toString('hex')] on one byte: two lower-case hexadecimal digits. *)
Definition hex_digit (n : N) : ascii :=
  match String.get (N.to_nat n) "0123456789abcdef" with
  | Some c => c
  | None => "0"%char
  end.

Definition hex_of_byte (b : byte) : string :=
  let n := Byte.to_N b in
  String (hex_digit (n / 16)%N) (String (hex_digit (n mod 16)%N) EmptyString).

(** The three bytes of [crypto.randomBytes(3)]. *)
Definition bytes3 : Type := (byte * byte * byte)%type.

Definition hex_of_bytes3 (r : bytes3) : string :=
  let '(b0, b1, b2) := r in
  hex_of_byte b0 ++ hex_of_byte b1 ++ hex_of_byte b2.

(** [generateShortCode()], with the random bytes it draws made explicit:
    [crypto.randomBytes(3).toString('hex').toUpperCase().slice(0, 5)]. *)
Definition generateShortCode (r : bytes3) : string :=
  slice0 5 (toUpperCase (hex_of_bytes3 r)).


(** ** The [links] table *)

(** A row.  Timestamps are integers (milliseconds); [last_clicked_at] is
    nullable. *)
Record Link : Type := mkLink {
  id : Z;
  code : string;
  target_url : string;
  clicks : Z;
  last_clicked_at : option Z;
  created_at : Z;
  updated_at : Z
}.

(** Modelled from the spec: the declaration of the [links] table is not part
    of the sources.  The spec gives [clicks] the initial value 0,
    [last_clicked_at] the initial value null and [id] a fresh value per
    inserted row; whether [code] carries a unique key is a field of the
    database, so that every result covers both declarations.  Rows are kept
    in insertion order, and [result.rows[0]] is the first matching row. *)
Record DB : Type := mkDB {
  code_unique : bool;
  next_id : Z;
  rows : list Link
}.

Definition with_rows (db : DB) (rs : list Link) : DB :=
  mkDB (code_unique db) (next_id db) rs.

(** [WHERE code = $1]. *)
Definition has_code (c : string) (l : Link) : bool := String.eqb (code l) c.

(** [SET clicks = clicks, last_clicked_at = NOW(), updated_at = NOW()]. *)
Definition touch (now : Z) (l : Link) : Link :=
  mkLink (id l) (code l) (target_url l) (clicks l) (Some now)
         (created_at l) now.

(** [SET clicks = $1, last_clicked_at = NOW(), updated_at = NOW()]. *)
Definition set_clicks (n now : Z) (l : Link) : Link :=
  mkLink (id l) (code l) (target_url l) n (Some now) (created_at l) now.

Definition update_where (p : Link -> bool) (f : Link -> Link)
    (rs : list Link) : list Link :=
  map (fun l => if p l then f l else l) rs.

(** *** SQL [LIKE]

    [%] matches any run of characters, [_] any one character, and a
    backslash makes the next pattern character literal.  A pattern ending in
    a lone backslash is an error in PostgreSQL; the patterns built by the
    list handler end in [%], so the case is given the value [false]. *)
Fixpoint like (p : string) : string -> bool :=
  match p with
  | EmptyString =>
      fun s => match s with EmptyString => true | String _ _ => false end
  | String c p' =>
      if Ascii.eqb c "%" then
        let rest := like p' in
        fix star (s : string) : bool :=
          (rest s
           || match s with
              | EmptyString => false
              | String _ s' => star s'
              end)%bool
      else if Ascii.eqb c "_" then
        fun s =>
          match s with
          | EmptyString => false
          | String _ s' => like p' s'
          end
      else if Ascii.eqb c "\" then
        match p' with
        | EmptyString => fun _ => false
        | String e p'' =>
            fun s =>
              match s with
              | EmptyString => false
              | String d s' => (Ascii.eqb e d && like p'' s')%bool
              end
        end
      else
        fun s =>
          match s with
          | EmptyString => false
          | String d s' => (Ascii.eqb c d && like p' s')%bool
          end
  end.

(** [WHERE LOWER(code) LIKE $1 OR LOWER(target_url) LIKE $1]. *)
Definition search_hit (pattern : string) (l : Link) : bool :=
  (like pattern (toLowerCase (code l))
   || like pattern (toLowerCase (target_url l)))%bool.

(** *** [ORDER BY created_at DESC]

    SQL leaves the order of rows with equal keys open; the model keeps them
    in table order.  The results below use sortedness and the set of rows
    only. *)
Fixpoint insert_desc (x : Link) (ls : list Link) : list Link :=
  match ls with
  | [] => [x]
  | y :: ls' =>
      if created_at x <? created_at y then y :: insert_desc x ls'
      else x :: ls
  end.

Fixpoint order_by_created_desc (ls : list Link) : list Link :=
  match ls with
  | [] => []
  | x :: ls' => insert_desc x (order_by_created_desc ls')
  end.

(** *** Statements

    One constructor per SQL text of the source, indexed by the type of
    [result.rows] (for [INSERT]: the returned row, or [None] when the
    statement raises). *)
Inductive stmt : Type -> Type :=
| SelectIdByCode (c : string) : stmt (list Z)
| InsertLink (c t : string) (now : Z) : stmt (option Link)
| SelectAll : stmt (list Link)
| SelectSearch (pattern : string) : stmt (list Link)
| SelectByCode (c : string) : stmt (list Link)
| DeleteByCode (c : string) : stmt (list Z)
| UpdateTouch (c : string) (now : Z) : stmt (list string)
| SelectClicks (c : string) : stmt (list Z)
| UpdateClicks (n : Z) (c : string) (now : Z) : stmt (list Z).

Definition exec {A : Type} (s : stmt A) (db : DB) : A * DB :=
  match s in stmt T return T * DB with
  | SelectIdByCode c =>
      (map id (filter (has_code c) (rows db)), db)
  | InsertLink c t now =>
      if (code_unique db && existsb (has_code c) (rows db))%bool then
        (None, db)
      else
        let l := mkLink (next_id db) c t 0 None now now in
        (Some l, mkDB (code_unique db) (next_id db + 1) (rows db ++ [l]))
  | SelectAll =>
      (order_by_created_desc (rows db), db)
  | SelectSearch pattern =>
      (order_by_created_desc (filter (search_hit pattern) (rows db)), db)
  | SelectByCode c =>
      (filter (has_code c) (rows db), db)
  | DeleteByCode c =>
      (map id (filter (has_code c) (rows db)),
       with_rows db (filter (fun l => negb (has_code c l)) (rows db)))
  | UpdateTouch c now =>
      (map target_url (filter (has_code c) (rows db)),
       with_rows db (update_where (has_code c) (touch now) (rows db)))
  | SelectClicks c =>
      (map clicks (filter (has_code c) (rows db)), db)
  | UpdateClicks n c now =>
      (map id (filter (has_code c) (rows db)),
       with_rows db (update_where (has_code c) (set_clicks n now) (rows db)))
  end.

(** ** Responses *)

Inductive Body : Type :=
| ErrorJson (msg : string)
| Text (msg : string)
| LinkJson (l : Link)
| LinksJson (ls : list Link)
| StatsJson (l : Link)
| MessageJson (msg : string)
| IncrementJson (msg : string) (newClicks : Z)
| Redirect (location : string).

Record Response : Type := mkResponse { status : Z; body : Body }.

(** The error kinds of the specification and the status code that reports
    each.  No status code of the handlers stands for
    [AllocationExhausted]. *)
Inductive ErrorKind : Type :=
| InvalidInput
| CodeConflict
| NotFound
| AllocationExhausted
| StoreUnavailable.

Definition error_kind (r : Response) : option ErrorKind :=
  if status r =? 400 then Some InvalidInput
  else if status r =? 409 then Some CodeConflict
  else if status r =? 404 then Some NotFound
  else if status r =? 500 then Some StoreUnavailable
  else None.

(** ** Handlers as sequences of statements *)

Inductive task : Type :=
| Done (r : Response)
| Await {A : Type} (s : stmt A) (k : A -> task).

(** A handler running alone. *)
Fixpoint run (t : task) (db : DB) : Response * DB :=
  match t with
  | Done r => (r, db)
  | Await s k => let (a, db') := exec s db in run (k a) db'
  end.

Definition json (st : Z) (msg : string) : Response :=
  mkResponse st (ErrorJson msg).

(** [v.startsWith(p)], reached only when [v] is a string. *)
Definition js_startsWith (v : jsval) (p : string) : bool :=
  match v with
  | JStr s => startsWith s p
  | _ => false
  end.

(** *** [POST /api/links] *)

Definition create_after_insert (r : option Link) : task :=
  match r with
  | Some link => Done (mkResponse 201 (LinkJson link))
  | None => Done (json 500 "Failed to create link")
  end.

Definition create_after_check (c t : string) (now : Z) (ids : list Z)
    : task :=
  match ids with
  | _ :: _ => Done (json 409 "Code already exists. Try another.")
  | [] => Await (InsertLink c t now) create_after_insert
  end.

(** [rnd] is what [crypto.randomBytes] returns if it is called, [now] the
    value of [NOW()] in the [INSERT]. *)
Definition create_link (target_url custom_code : jsval) (rnd : bytes3)
    (now : Z) : task :=
  if (negb (truthy target_url) || negb (is_string target_url)
      || negb (js_startsWith target_url "http"))%bool then
    Done (json 400 "Valid target_url is required")
  else
    let code :=
      if truthy custom_code then custom_code
      else JStr (generateShortCode rnd) in
    if (js_length_gt code 8 || negb (alnum_plus (js_to_string code)))%bool
    then Done (json 400 "Custom code must be 1-8 alphanumeric chars")
    else
      Await (SelectIdByCode (js_to_string code))
            (create_after_check (js_to_string code)
                                (js_to_string target_url) now).

(** *** [GET /api/links] *)

Definition list_links (search : option string) : task :=
  let respond := fun ls : list Link => Done (mkResponse 200 (LinksJson ls)) in
  match search with
  | Some (String c s) =>
      Await (SelectSearch ("%" ++ toLowerCase (String c s) ++ "%")) respond
  | Some EmptyString | None => Await SelectAll respond
  end.

(** *** [GET /api/links/:code] *)

Definition get_link (c : string) : task :=
  Await (SelectByCode c)
        (fun rs =>
           match rs with
           | [] => Done (json 404 "Link not found")
           | link :: _ => Done (mkResponse 200 (StatsJson link))
           end).

(** *** [DELETE /api/links/:code] *)

Definition delete_link (c : string) : task :=
  Await (DeleteByCode c)
        (fun ids =>
           match ids with
           | [] => Done (json 404 "Link not found")
           | _ :: _ =>
               Done (mkResponse 200 (MessageJson "Link deleted successfully"))
           end).

(** *** [GET /:code]

    The 302 response carries the no-cache headers. *)

Definition redirect (c : string) (now : Z) : task :=
  Await (UpdateTouch c now)
        (fun urls =>
           match urls with
           | [] => Done (mkResponse 404 (Text "Link not found"))
           | url :: _ => Done (mkResponse 302 (Redirect url))
           end).

(** *** [POST /api/increment/:code] *)

Definition increment_after_update (currentClicks : Z) (ids : list Z)
    : task :=
  match ids with
  | [] => Done (json 404 "Link not found")
  | _ :: _ =>
      Done (mkResponse 200
              (IncrementJson "Clicks incremented successfully"
                             (currentClicks + 1)))
  end.

Definition increment_after_select (c : string) (now : Z) (cs : list Z)
    : task :=
  match cs with
  | [] => Done (json 404 "Link not found")
  | currentClicks :: _ =>
      Await (UpdateClicks (currentClicks + 1) c now)
            (increment_after_update currentClicks)
  end.

Definition increment (c : string) (now : Z) : task :=
  Await (SelectClicks c) (increment_after_select c now).

(** ** Concurrent requests

    Requests in flight form a pool of tasks.  A schedule names, statement by
    statement, the task whose next statement the database executes. *)

Definition step (t : task) (db : DB) : task * DB :=
  match t with
  | Done r => (Done r, db)
  | Await s k => let (a, db') := exec s db in (k a, db')
  end.

Fixpoint replace_nth {A : Type} (i : nat) (x : A) (l : list A) : list A :=
  match l, i with
  | [], _ => []
  | _ :: l', O => x :: l'
  | y :: l', S i' => y :: replace_nth i' x l'
  end.

Fixpoint run_sched (sched : list nat) (pool : list task) (db : DB)
    : list task * DB :=
  match sched with
  | [] => (pool, db)
  | i :: sched' =>
      match nth_error pool i with
      | None => run_sched sched' pool db
      | Some t =>
          let (t', db') := step t db in
          run_sched sched' (replace_nth i t' pool) db'
      end
  end.

Definition is_done (t : task) : bool :=
  match t with Done _ => true | Await _ _ => false end.

(** The requests one after another, none overlapping the next. *)
Fixpoint run_all (ts : list task) (db : DB) : list Response * DB :=
  match ts with
  | [] => ([], db)
  | t :: ts' =>
      let (r, db1) := run t db in
      let (rs, db2) := run_all ts' db1 in
      (r :: rs, db2)
  end.

(** ** Vocabulary of the specification *)

(** The format rule for codes: 1 to 8 characters, all of [[A-Za-z0-9]]. *)
Definition code_format_ok (s : string) : bool :=
  ((1 <=? String.length s)%nat && (String.length s <=? 8)%nat
   && string_forall Chars.is_alnum s)%bool.

(** A URL beginning with an HTTP scheme. *)
Definition begins_with_http_scheme (s : string) : bool :=
  (String.prefix "http://" s || String.prefix "https://" s)%bool.

(** The first row carrying a code, as [result.rows[0]] of a lookup. *)
Definition lookup (c : string) (db : DB) : option Link :=
  find (has_code c) (rows db).

Definition code_in_use (c : string) (db : DB) : bool :=
  existsb (has_code c) (rows db).

(** [t] occurs in [s] as a run of consecutive characters. *)
Fixpoint is_substring (t s : string) : bool :=
  (String.prefix t s
   || match s with
      | EmptyString => false
      | String _ s' => is_substring t s'
      end)%bool.

(** [t] occurs in [s], letter case ignored. *)
Definition contains_ci (t s : string) : bool :=
  is_substring (toLowerCase t) (toLowerCase s).

(** The link's code or its target URL contains the search term. *)
Definition mentions (t : string) (l : Link) : bool :=
  (contains_ci t (code l) || contains_ci t (target_url l))%bool.

(** The characters with a special meaning in a [LIKE] pattern. *)
Definition is_meta (c : ascii) : bool :=
  (Ascii.eqb c "%" || Ascii.eqb c "_" || Ascii.eqb c "\")%bool.

Definition no_meta (t : string) : bool :=
  string_forall (fun c => negb (is_meta c)) t.

(** Newest first. *)
Definition newer_first (a b : Link) : Prop := created_at b <= created_at a.

Definition succeeded (r : Response) : bool :=
  ((200 <=? status r) && (status r <? 400))%bool.

(** ** Named responses and sample data *)

Definition conflict_response : Response :=
  json 409 "Code already exists. Try another.".

Definition bad_code_response : Response :=
  json 400 "Custom code must be 1-8 alphanumeric chars".

Definition bad_url_response : Response :=
  json 400 "Valid target_url is required".

(** The row written by a successful [INSERT]. *)
Definition fresh_link (db : DB) (c t : string) (now : Z) : Link :=
  mkLink (next_id db) c t 0 None now now.

Definition with_new_row (db : DB) (l : Link) : DB :=
  mkDB (code_unique db) (next_id db + 1) (rows db ++ [l]).

Definition check_then_insert (c t : string) (now : Z) : task :=
  Await (SelectIdByCode c) (create_after_check c t now).

Definition sample_db : DB :=
  mkDB true 2
       [mkLink 1 "D2FD3" "https://example.com" 4 (Some 900) 100 900].

(** The guard of [POST /api/links] on [target_url], read positively: the
    request goes on when [target_url] is truthy, a string, and starts with
    the four characters [http]. *)
Definition target_url_accepted (v : jsval) : bool :=
  (truthy v && is_string v && js_startsWith v "http")%bool.

(** A custom code that is absent (falsy) or a string of the code format. *)
Definition custom_code_acceptable (v : jsval) : bool :=
  (negb (truthy v)
   || match v with JStr c => code_format_ok c | _ => false end)%bool.

(** A table with the link of the spec's worked example, not yet visited. *)
Definition example_db : DB :=
  mkDB true 2 [mkLink 1 "A1B2C" "https://example.com" 0 None 100 100].

(** ** The states of an increment request

    A request to [POST /api/increment/:code] is either about to read the
    counter, holding the value [v] it read and about to write [v + 1], or
    answered. *)
Inductive inc_phase : Type :=
| IncStart
| IncRead (v : Z)
| IncDone (v : Z).

Definition increment_ok (v : Z) : Response :=
  mkResponse 200 (IncrementJson "Clicks incremented successfully" (v + 1)).

Definition inc_task (c : string) (st : Z * inc_phase) : task :=
  let (now, p) := st in
  match p with
  | IncStart => increment c now
  | IncRead v =>
      Await (UpdateClicks (v + 1) c now) (increment_after_update v)
  | IncDone v => Done (increment_ok v)
  end.

Definition phase_done (st : Z * inc_phase) : bool :=
  match snd st with
  | IncDone _ => true
  | _ => false
  end.

(** The number of requests that have written. *)
Definition done_count (sts : list (Z * inc_phase)) : Z :=
  Z.of_nat (List.length (filter phase_done sts)).

(** What holds of the counter of code [c], initially [c0], while increment
    requests are in flight: it lies between [c0] (plus 1 once some request
    has written) and [c0] plus the number of requests that have written,
    and so does every value read and not yet written back. *)
Definition read_ok (c0 w : Z) (st : Z * inc_phase) : Prop :=
  match snd st with
  | IncRead v => c0 <= v <= c0 + w
  | _ => True
  end.

Definition inc_inv (c : string) (c0 : Z) (sts : list (Z * inc_phase))
    (db : DB) : Prop :=
  exists l : Link,
    lookup c db = Some l
    /\ c0 + Z.min 1 (done_count sts) <= clicks l <= c0 + done_count sts
    /\ Forall (read_ok c0 (done_count sts)) sts.

(** A creation request for the custom code [X]: target URL, random bytes
    the generator would draw, time of the insert. *)
Definition create_custom (X : string) (r : string * bytes3 * Z) : task :=
  let '(url, rnd, now) := r in create_link (JStr url) (JStr X) rnd now.

(** Two creation requests for the custom code ["promo"]. *)
Definition promo_requests : list task :=
  [create_link (JStr "https://example.com") (JStr "promo")
               (x00, x00, x00)%byte 1000;
   create_link (JStr "https://example.org") (JStr "promo")
               (x00, x00, x00)%byte 1001].

Definition promo_com (i : Z) : Link :=
  mkLink i "promo" "https://example.com" 0 None 1000 1000.

Definition promo_org (i : Z) : Link :=
  mkLink i "promo" "https://example.org" 0 None 1001 1001.

(** ** Routing

    The routes in the order in which [app.post], [app.get] and [app.delete]
    register them; a request is served by the first route that matches its
    method and path.  A path is the list of its non-empty segments,
    percent-decoded.  Static segments match without regard to letter case
    (Express's default), a parameter such as [:code] matches any one
    segment, and a [HEAD] request is served by the [GET] routes. *)

Inductive http_method : Type :=
| GET
| HEAD
| POST
| DELETE
| OtherMethod.

Inductive route : Type :=
| RouteCreate
| RouteList
| RouteStats (c : string)
| RouteDelete (c : string)
| RouteRedirect (c : string)
| RouteIncrement (c : string)
| RouteHealth.

Inductive verb : Type := VGet | VPost | VDelete.

Definition verb_serves (v : verb) (m : http_method) : bool :=
  match v, m with
  | VGet, GET | VGet, HEAD | VPost, POST | VDelete, DELETE => true
  | _, _ => false
  end.

(** A static segment of a route path. *)
Definition static (name seg : string) : bool :=
  String.eqb (toLowerCase seg) name.

Definition routes : list (verb * (list string -> option route)) :=
  [ (VPost, fun p => match p with
                     | [a; b] =>
                         if (static "api" a && static "links" b)%bool
                         then Some RouteCreate else None
                     | _ => None
                     end);
    (VGet, fun p => match p with
                    | [a; b] =>
                        if (static "api" a && static "links" b)%bool
                        then Some RouteList else None
                    | _ => None
                    end);
    (VGet, fun p => match p with
                    | [a; b; c] =>
                        if (static "api" a && static "links" b)%bool
                        then Some (RouteStats c) else None
                    | _ => None
                    end);
    (VDelete, fun p => match p with
                       | [a; b; c] =>
                           if (static "api" a && static "links" b)%bool
                           then Some (RouteDelete c) else None
                       | _ => None
                       end);
    (VGet, fun p => match p with
                    | [c] => Some (RouteRedirect c)
                    | _ => None
                    end);
    (VPost, fun p => match p with
                     | [a; b; c] =>
                         if (static "api" a && static "increment" b)%bool
                         then Some (RouteIncrement c) else None
                     | _ => None
                     end);
    (VGet, fun p => match p with
                    | [h] => if static "health" h then Some RouteHealth
                             else None
                    | _ => None
                    end) ].

Fixpoint first_match (rs : list (verb * (list string -> option route)))
    (m : http_method) (p : list string) : option route :=
  match rs with
  | [] => None
  | (v, pat) :: rs' =>
      if verb_serves v m then
        match pat p with
        | Some r => Some r
        | None => first_match rs' m p
        end
      else first_match rs' m p
  end.

Definition dispatch (m : http_method) (p : list string) : option route :=
  first_match routes m p.

(** What a handler reads of a request besides the path. *)
Record http_request : Type := mkRequest {
  method : http_method;
  path : list string;
  body_target_url : jsval;
  body_custom_code : jsval;
  query_search : option string
}.

(** The statements of the route's handler; the health check has none. *)
Definition route_task (r : route) (h : http_request) (rnd : bytes3)
    (now : Z) : option task :=
  match r with
  | RouteCreate =>
      Some (create_link (body_target_url h) (body_custom_code h) rnd now)
  | RouteList => Some (list_links (query_search h))
  | RouteStats c => Some (get_link c)
  | RouteDelete c => Some (delete_link c)
  | RouteRedirect c => Some (redirect c now)
  | RouteIncrement c => Some (increment c now)
  | RouteHealth => None
  end.

(** The answer to a request: a handler's response, the health check's
    [{ status: 'OK' }], or no route at all. *)
Inductive served : Type :=
| Answer (r : Response)
| HealthOK
| NotRouted.

Definition serve (h : http_request) (rnd : bytes3) (now : Z) (db : DB)
    : served * DB :=
  match dispatch (method h) (path h) with
  | None => (NotRouted, db)
  | Some r =>
      match route_task r h rnd now with
      | None => (HealthOK, db)
      | Some t => let (resp, db') := run t db in (Answer resp, db')
      end
  end.

(** The task of some route, for some request. *)
Definition is_handler (t : task) : Prop :=
  exists (r : route) (h : http_request) (rnd : bytes3) (now : Z),
    route_task r h rnd now = Some t.

(** ** Further vocabulary *)

(** The characters of [toString('hex').toUpperCase()]. *)
Definition is_upper_hex (c : ascii) : bool :=
  (Chars.is_digit c || Chars.in_range "A" "F" c)%bool.

(** The value of an upper-case hexadecimal digit. *)
Definition hex_value (c : ascii) : N :=
  if Chars.is_digit c then N.of_nat (nat_of_ascii c - 48)
  else N.of_nat (nat_of_ascii c - 55).

(** The codes of the table, in row order. *)
Definition codes (db : DB) : list string := map code (rows db).

(** The rows carrying, and not carrying, a code. *)
Definition rows_with (c : string) (db : DB) : list Link :=
  filter (has_code c) (rows db).

Definition rows_without (c : string) (db : DB) : list Link :=
  filter (fun l => negb (has_code c l)) (rows db).

(** A row as the creation handler writes it: the code matches
    [[a-zA-Z0-9]+] and the target URL starts with [http]. *)
Definition row_ok (l : Link) : bool :=
  (alnum_plus (code l) && startsWith (target_url l) "http")%bool.

Definition table_ok (db : DB) : Prop :=
  Forall (fun l => row_ok l = true) (rows db).

Definition stmt_ok {A : Type} (s : stmt A) : Prop :=
  match s with
  | InsertLink c t _ => alnum_plus c = true /\ startsWith t "http" = true
  | _ => True
  end.

(** Every [INSERT] the task can still issue writes a row of that form. *)
Fixpoint task_ok (t : task) : Prop :=
  match t with
  | Done _ => True
  | Await s k => stmt_ok s /\ forall a, task_ok (k a)
  end.

Definition server_error : Response := json 500 "Failed to create link".

Definition not_found_json : Response := json 404 "Link not found".

Definition created (r : Response) : bool := status r =? 201.

(** ** The states of a creation request for a custom code

    About to check the code, past the check and about to insert, or
    answered. *)
Inductive create_phase : Type :=
| CrStart
| CrChecked
| CrDone (r : Response).

Definition create_task (X : string) (st : (string * bytes3 * Z) * create_phase)
    : task :=
  let '((url, rnd, now), p) := st in
  match p with
  | CrStart => check_then_insert X url now
  | CrChecked => Await (InsertLink X url now) create_after_insert
  | CrDone r => Done r
  end.

Definition create_result (st : (string * bytes3 * Z) * create_phase)
    : option Response :=
  match snd st with
  | CrDone r => Some r
  | _ => None
  end.

(** The requests answered 201 so far. *)
Definition wins (sts : list ((string * bytes3 * Z) * create_phase)) : nat :=
  List.length
    (filter (fun st => match create_result st with
                       | Some r => created r
                       | None => false
                       end) sts).

Definition answered (sts : list ((string * bytes3 * Z) * create_phase))
    : nat :=
  List.length
    (filter (fun st => match create_result st with
                       | Some _ => true
                       | None => false
                       end) sts).

(** Requests served one after another, each with the random bytes and the
    time it would use. *)
Fixpoint serve_all (reqs : list (http_request * bytes3 * Z)) (db : DB)
    : DB :=
  match reqs with
  | [] => db
  | (h, rnd, now) :: reqs' => serve_all reqs' (snd (serve h rnd now db))
  end.

Definition deleted_response : Response :=
  mkResponse 200 (MessageJson "Link deleted successfully").

(** The answers a creation request for a custom code can get: 201, 409, or
    -- only when the [code] column has a unique key [u] -- 500. *)
Definition result_ok (u : bool) (r : Response) : Prop :=
  created r = true \/ r = conflict_response
  \/ (u = true /\ r = server_error).

Definition create_phase_ok (u : bool)
    (st : (string * bytes3 * Z) * create_phase) : Prop :=
  match snd st with
  | CrDone r => result_ok u r
  | _ => True
  end.

(** What holds while creation requests for the code [X], free at first, are
    in flight: the rows with code [X] are as many as the requests answered
    201; once a request is answered, one has been answered 201; and under
    a unique key at most one has. *)
Definition cr_inv (X : string) (u : bool)
    (sts : list ((string * bytes3 * Z) * create_phase)) (db : DB) : Prop :=
  code_unique db = u
  /\ List.length (rows_with X db) = wins sts
  /\ Forall (create_phase_ok u) sts
  /\ ((0 < answered sts)%nat -> (1 <= wins sts)%nat)
  /\ (u = true -> (wins sts <= 1)%nat).

(** ** Where the model speaks for the code

    Letter case is modelled on the ASCII letters, and a request body on
    JSON scalars with integers printed in plain decimal: results that rest
    on either are stated for ASCII text, and for custom codes that are
    scalars with integers of magnitude at most 2^53 - 1. *)

Definition is_ascii (c : ascii) : bool := (nat_of_ascii c <? 128)%nat.

Definition ascii_text (s : string) : bool := string_forall is_ascii s.

(** Every stored code and target URL is ASCII text. *)
Definition ascii_table (db : DB) : bool :=
  forallb (fun l => (ascii_text (code l) && ascii_text (target_url l))%bool)
          (rows db).

(** A scalar whose number, if it is one, is a safe integer. *)
Definition safe_scalar (v : jsval) : bool :=
  match v with
  | JNum n => Z.abs n <=? 9007199254740991
  | _ => true
  end.

(** The task of some route, for a request whose custom code is such a
    scalar. *)
Definition is_scalar_handler (t : task) : Prop :=
  exists (r : route) (h : http_request) (rnd : bytes3) (now : Z),
    safe_scalar (body_custom_code h) = true
    /\ route_task r h rnd now = Some t.

(** The table after a creation request with the numeric custom code
    123456789012: it holds a link whose code has twelve characters. *)
Definition numeric_code_db : DB :=
  snd (run (create_link (JStr "https://example.com") (JNum 123456789012)
                        (x00, x00, x00)%byte 1000) (mkDB true 1 [])).

(** * Properties *)

(** ** Strings *)

Lemma string_map_app (f : ascii -> ascii) (s t : string) :
  string_map f (s ++ t) = string_map f s ++ string_map f t.
Proof.
  induction s as [|c s IH]; simpl; [reflexivity | now rewrite IH].
Qed.

Lemma alnum_plus_format (s : string) :
  code_format_ok s = (negb (js_length_gt (JStr s) 8) && alnum_plus s)%bool.
Proof.
  unfold code_format_ok, js_length_gt, alnum_plus.
  destruct s as [|c s]; [reflexivity |].
  cbn [String.length].
  replace (1 <=? S (String.length s))%nat with true
    by (symmetry; apply Nat.leb_le; lia).
  rewrite Nat.ltb_antisym, negb_involutive. reflexivity.
Qed.

(** ** Generated codes *)

Lemma hex_of_byte_check (b : byte) :
  match toUpperCase (hex_of_byte b) with
  | String c1 (String c2 EmptyString) =>
      (Chars.is_alnum c1 && Chars.is_alnum c2)%bool
  | _ => false
  end = true.
Proof. destruct b; vm_compute; reflexivity. Qed.

Lemma hex_of_byte_upper (b : byte) :
  exists c1 c2 : ascii,
    toUpperCase (hex_of_byte b) = String c1 (String c2 "")
    /\ Chars.is_alnum c1 = true /\ Chars.is_alnum c2 = true.
Proof.
  pose proof (hex_of_byte_check b) as H.
  destruct (toUpperCase (hex_of_byte b)) as [|c1 [|c2 [|? ?]]];
    try discriminate H.
  apply andb_prop in H. exists c1, c2. tauto.
Qed.

Lemma generateShortCode_shape (r : bytes3) :
  exists c1 c2 c3 c4 c5 : ascii,
    generateShortCode r
    = String c1 (String c2 (String c3 (String c4 (String c5 ""))))
    /\ forallb Chars.is_alnum [c1; c2; c3; c4; c5] = true.
Proof.
  destruct r as [[b0 b1] b2].
  unfold generateShortCode, hex_of_bytes3, toUpperCase.
  rewrite !string_map_app.
  destruct (hex_of_byte_upper b0) as (a1 & a2 & E0 & Ha1 & Ha2).
  destruct (hex_of_byte_upper b1) as (a3 & a4 & E1 & Ha3 & Ha4).
  destruct (hex_of_byte_upper b2) as (a5 & a6 & E2 & Ha5 & _).
  unfold toUpperCase in E0, E1, E2. rewrite E0, E1, E2.
  exists a1, a2, a3, a4, a5. split; [reflexivity |].
  cbn [forallb]. now rewrite Ha1, Ha2, Ha3, Ha4, Ha5.
Qed.

Lemma generateShortCode_length (r : bytes3) :
  String.length (generateShortCode r) = 5%nat.
Proof.
  destruct (generateShortCode_shape r) as (c1 & c2 & c3 & c4 & c5 & E & _).
  now rewrite E.
Qed.

Lemma generateShortCode_alnum (r : bytes3) :
  alnum_plus (generateShortCode r) = true.
Proof.
  destruct (generateShortCode_shape r) as (c1 & c2 & c3 & c4 & c5 & E & H).
  rewrite E. cbn in *.
  repeat (apply andb_prop in H; destruct H as [?H H]).
  repeat (apply andb_true_intro; split); assumption || reflexivity.
Qed.

Lemma generateShortCode_format (r : bytes3) :
  code_format_ok (generateShortCode r) = true.
Proof.
  rewrite alnum_plus_format, generateShortCode_alnum.
  unfold js_length_gt. now rewrite generateShortCode_length.
Qed.

Lemma format_ok_nonempty (s : string) :
  code_format_ok s = true -> s <> "".
Proof. intros H ->. discriminate H. Qed.

(** ** Lookups in the table *)

Lemma filter_nil_existsb {A : Type} (p : A -> bool) (l : list A) :
  existsb p l = false -> filter p l = [].
Proof.
  induction l as [|x l IH]; simpl; [reflexivity |].
  destruct (p x); simpl; [discriminate | exact IH].
Qed.

Lemma filter_cons_existsb {A : Type} (p : A -> bool) (l : list A) :
  existsb p l = true -> exists x l', filter p l = x :: l'.
Proof.
  induction l as [|x l IH]; simpl; [discriminate |].
  destruct (p x); simpl; [eauto | exact IH].
Qed.

Lemma filter_find {A : Type} (p : A -> bool) (l : list A) :
  find p l = hd_error (filter p l).
Proof.
  induction l as [|x l IH]; simpl; [reflexivity |].
  destruct (p x); [reflexivity | exact IH].
Qed.

Lemma target_checks (url : string) :
  startsWith url "http" = true ->
  (negb (truthy (JStr url)) || negb (is_string (JStr url))
   || negb (js_startsWith (JStr url) "http"))%bool = false.
Proof.
  intros H. cbn [truthy is_string js_startsWith]. rewrite H.
  destruct url; [discriminate H | reflexivity].
Qed.

Lemma prefix_app_l (a b s : string) :
  String.prefix (a ++ b) s = true -> String.prefix a s = true.
Proof.
  revert s. induction a as [|c a IH]; intros s H.
  - now destruct s.
  - destruct s as [|d s]; simpl in *; [discriminate H |].
    destruct (ascii_dec c d); [now apply IH | discriminate H].
Qed.

Lemma scheme_startsWith (url : string) :
  begins_with_http_scheme url = true -> startsWith url "http" = true.
Proof.
  unfold begins_with_http_scheme, startsWith. intros H.
  apply orb_prop in H. destruct H as [H | H].
  - now apply (prefix_app_l "http" "://").
  - now apply (prefix_app_l "http" "s://").
Qed.

(** ** Creation, one request at a time *)

Lemma run_check_then_insert (c t : string) (now : Z) (db : DB) :
  run (check_then_insert c t now) db
  = if code_in_use c db then (conflict_response, db)
    else (mkResponse 201 (LinkJson (fresh_link db c t now)),
          with_new_row db (fresh_link db c t now)).
Proof.
  unfold check_then_insert, code_in_use. cbn [run exec].
  destruct (existsb (has_code c) (rows db)) eqn:E.
  - destruct (filter_cons_existsb _ _ E) as (x & l' & ->). reflexivity.
  - rewrite (filter_nil_existsb _ _ E). cbn [map create_after_check run exec].
    rewrite E, andb_false_r. reflexivity.
Qed.

Lemma create_link_custom (url c : string) (rnd : bytes3) (now : Z) :
  startsWith url "http" = true -> c <> "" ->
  create_link (JStr url) (JStr c) rnd now
  = if code_format_ok c then check_then_insert c url now
    else Done bad_code_response.
Proof.
  intros Hu Hc. unfold create_link. rewrite (target_checks url Hu).
  assert (truthy (JStr c) = true) as ->.
  { cbn. destruct c; [contradiction | reflexivity]. }
  rewrite alnum_plus_format. cbn [js_to_string].
  destruct (js_length_gt (JStr c) 8); cbn [orb negb andb]; [reflexivity |].
  destruct (alnum_plus c); reflexivity.
Qed.

Lemma create_link_generated (url : string) (cc : jsval) (rnd : bytes3)
    (now : Z) :
  startsWith url "http" = true -> truthy cc = false ->
  create_link (JStr url) cc rnd now
  = check_then_insert (generateShortCode rnd) url now.
Proof.
  intros Hu Hc. unfold create_link. rewrite (target_checks url Hu), Hc.
  pose proof (generateShortCode_format rnd) as F.
  rewrite alnum_plus_format in F. cbn [js_to_string].
  apply andb_prop in F. destruct F as [F1 F2].
  apply negb_true_iff in F1. rewrite F1, F2. reflexivity.
Qed.

Lemma lookup_with_new_row (db : DB) (l : Link) :
  code_in_use (code l) db = false ->
  lookup (code l) (with_new_row db l) = Some l.
Proof.
  unfold code_in_use, lookup, with_new_row. cbn [rows]. intros H.
  induction (rows db) as [|x rs IH]; cbn in *.
  - unfold has_code. now rewrite String.eqb_refl.
  - destruct (has_code (code l) x); [discriminate H | now apply IH].
Qed.

Lemma run_get_link (c : string) (db : DB) :
  run (get_link c) db
  = match lookup c db with
    | Some link => (mkResponse 200 (StatsJson link), db)
    | None => (json 404 "Link not found", db)
    end.
Proof.
  unfold get_link, lookup. cbn [run exec]. rewrite filter_find.
  destruct (filter (has_code c) (rows db)); reflexivity.
Qed.

Lemma create_existing_code_conflict_run
    (db : DB) (X url : string) (rnd : bytes3) (now : Z) :
  code_in_use X db = true ->
  code_format_ok X = true ->
  startsWith url "http" = true ->
  run (create_link (JStr url) (JStr X) rnd now) db = (conflict_response, db).
Proof.
  intros Hin Hfmt Hurl.
  rewrite (create_link_custom url X rnd now Hurl (format_ok_nonempty X Hfmt)).
  now rewrite Hfmt, run_check_then_insert, Hin.
Qed.

(** C5 as stated fails: the format check comes before the existence check,
    so for a stored code that is not of the code format -- the twelve
    digits left by a numeric custom code -- a creation request with that
    code as a string is answered 400, not 409. *)
Lemma conflict_needs_code_format :
  ~ (forall (db : DB) (X url : string) (rnd : bytes3) (now : Z),
        code_in_use X db = true ->
        startsWith url "http" = true ->
        fst (run (create_link (JStr url) (JStr X) rnd now) db)
        = conflict_response).
Proof.
  intros H.
  specialize (H numeric_code_db "123456789012" "https://example.org"
                (x00, x00, x00)%byte 2000 eq_refl eq_refl).
  vm_compute in H. discriminate H.
Qed.

(** C5, amended.  In a table holding a link with code [X], where [X] is of
    the code format, a creation request for the custom code [X] with an
    accepted target URL is answered 409, the [CodeConflict] kind, and the
    table, hence the record with code [X], is exactly what it was. *)
Theorem create_existing_code_conflict
    (db : DB) (X url : string) (rnd : bytes3) (now : Z) :
  code_in_use X db = true ->
  code_format_ok X = true ->
  startsWith url "http" = true ->
  run (create_link (JStr url) (JStr X) rnd now) db = (conflict_response, db)
  /\ status conflict_response = 409
  /\ error_kind conflict_response = Some CodeConflict
  /\ lookup X (snd (run (create_link (JStr url) (JStr X) rnd now) db))
     = lookup X db.
Proof.
  intros Hin Hfmt Hurl.
  rewrite (create_existing_code_conflict_run db X url rnd now Hin Hfmt Hurl).
  repeat split; reflexivity.
Qed.

Lemma create_existing_code_conflict_witness :
  run (create_link (JStr "https://other.example") (JStr "D2FD3")
                   (x00, x00, x00)%byte 1000) sample_db
  = (conflict_response, sample_db).
Proof.
  apply (create_existing_code_conflict sample_db "D2FD3"
           "https://other.example" (x00, x00, x00)%byte 1000);
    reflexivity.
Defined.

Lemma target_url_accepted_guard (v : jsval) :
  (negb (truthy v) || negb (is_string v) || negb (js_startsWith v "http"))%bool
  = negb (target_url_accepted v).
Proof.
  unfold target_url_accepted. now rewrite !negb_andb.
Qed.

Lemma target_url_accepted_inv (v : jsval) :
  target_url_accepted v = true ->
  exists url, v = JStr url /\ startsWith url "http" = true.
Proof.
  unfold target_url_accepted. intros H.
  apply andb_prop in H. destruct H as [H H3].
  apply andb_prop in H. destruct H as [_ H2].
  destruct v; try discriminate H2. eauto.
Qed.

Lemma create_link_rejected_url (target cc : jsval) (rnd : bytes3) (now : Z) :
  target_url_accepted target = false ->
  create_link target cc rnd now = Done bad_url_response.
Proof.
  intros H. unfold create_link.
  now rewrite target_url_accepted_guard, H.
Qed.

(** The answers [POST /api/links] can give when it runs alone. *)
Lemma create_link_answers
    (db : DB) (target cc : jsval) (rnd : bytes3) (now : Z) :
  let r := fst (run (create_link target cc rnd now) db) in
  r = bad_url_response \/ r = bad_code_response \/ r = conflict_response
  \/ exists l, r = mkResponse 201 (LinkJson l).
Proof.
  cbv zeta. unfold create_link.
  destruct (negb (truthy target) || negb (is_string target)
            || negb (js_startsWith target "http"))%bool; [now left |].
  match goal with
  | |- context [if ?b then Done _ else _] => destruct b
  end; [now (right; left) |].
  fold (check_then_insert
          (js_to_string
             (if truthy cc then cc else JStr (generateShortCode rnd)))
          (js_to_string target) now).
  rewrite run_check_then_insert.
  match goal with
  | |- context [if ?b then _ else _] => destruct b
  end; cbn [fst]; eauto.
Qed.

(** C6 as stated fails: the empty custom code violates the format rule, yet
    the request is answered 201 and a row is written. *)
Lemma empty_custom_code_not_rejected :
  ~ (forall (db : DB) (url cc : string) (rnd : bytes3) (now : Z),
        code_format_ok cc = false ->
        status (fst (run (create_link (JStr url) (JStr cc) rnd now) db)) = 400
        /\ snd (run (create_link (JStr url) (JStr cc) rnd now) db) = db).
Proof.
  intros H.
  specialize (H example_db "https://example.com" "" (x00, x00, x00)%byte
                1000 eq_refl).
  destruct H as [H _]. vm_compute in H. discriminate H.
Qed.

(** C6, amended.  A custom code of at least one character that violates the
    format rule (more than 8 characters, or a character outside
    [[A-Za-z0-9]]) is answered 400, the [InvalidInput] kind, whatever the
    target URL, and the table is left as it was. *)
Theorem create_malformed_code_rejected
    (db : DB) (target : jsval) (cc : string) (rnd : bytes3) (now : Z) :
  cc <> "" ->
  code_format_ok cc = false ->
  status (fst (run (create_link target (JStr cc) rnd now) db)) = 400
  /\ error_kind (fst (run (create_link target (JStr cc) rnd now) db))
     = Some InvalidInput
  /\ snd (run (create_link target (JStr cc) rnd now) db) = db.
Proof.
  intros Hne Hfmt.
  destruct (target_url_accepted target) eqn:Ht.
  - destruct (target_url_accepted_inv target Ht) as (url & -> & Hu).
    rewrite (create_link_custom url cc rnd now Hu Hne), Hfmt.
    repeat split; reflexivity.
  - rewrite (create_link_rejected_url target (JStr cc) rnd now Ht).
    repeat split; reflexivity.
Qed.

Lemma create_malformed_code_rejected_witness :
  status (fst (run (create_link (JStr "https://example.com")
                                (JStr "not-a-code") (x00, x00, x00)%byte 1000)
                   example_db)) = 400
  /\ snd (run (create_link (JStr "https://example.com")
                           (JStr "not-a-code") (x00, x00, x00)%byte 1000)
              example_db) = example_db.
Proof.
  destruct (create_malformed_code_rejected example_db
              (JStr "https://example.com") "not-a-code"
              (x00, x00, x00)%byte 1000) as (H1 & _ & H3).
  - discriminate.
  - reflexivity.
  - split; [exact H1 | exact H3].
Defined.

(** A number has no [length]: a numeric custom code of twelve digits passes
    the format check and goes on to the existence check. *)
Example numeric_custom_code_passes_check :
  create_link (JStr "https://example.com") (JNum 123456789012)
              (x00, x00, x00)%byte 1000
  = check_then_insert "123456789012" "https://example.com" 1000.
Proof. reflexivity. Qed.

(** C7 as stated fails: ["httpfoo"] does not begin with an HTTP scheme, yet
    the request passes validation and the link is created. *)
Lemma target_without_scheme_accepted :
  ~ (forall (db : DB) (url : string) (cc : jsval) (rnd : bytes3) (now : Z),
        begins_with_http_scheme url = false ->
        status (fst (run (create_link (JStr url) cc rnd now) db)) = 400).
Proof.
  intros H.
  specialize (H example_db "httpfoo" JUndefined (x00, x00, x00)%byte 1000
                eq_refl).
  vm_compute in H. discriminate H.
Qed.

(** C7, amended.  A request whose [target_url] is empty, not a string, or
    does not start with the four characters [http] is answered 400 and
    writes nothing; a [target_url] that starts with [http] -- as every one
    beginning with an HTTP scheme does -- passes validation when the custom
    code is well-formed or absent. *)
Theorem create_target_url_validation
    (db : DB) (target cc : jsval) (rnd : bytes3) (now : Z) :
  (target_url_accepted target = false ->
   run (create_link target cc rnd now) db = (bad_url_response, db)
   /\ error_kind bad_url_response = Some InvalidInput)
  /\ (target_url_accepted target = true ->
      custom_code_acceptable cc = true ->
      status (fst (run (create_link target cc rnd now) db)) <> 400)
  /\ (forall url : string,
        begins_with_http_scheme url = true ->
        target_url_accepted (JStr url) = true).
Proof.
  split; [| split].
  - intros H. rewrite (create_link_rejected_url target cc rnd now H).
    split; reflexivity.
  - intros Ht Hc.
    destruct (target_url_accepted_inv target Ht) as (url & -> & Hu).
    unfold custom_code_acceptable in Hc.
    destruct (truthy cc) eqn:Tc; cbn [negb orb] in Hc.
    + destruct cc as [| | b | n | c]; try discriminate Hc.
      rewrite (create_link_custom url c rnd now Hu
                 (format_ok_nonempty c Hc)), Hc.
      rewrite run_check_then_insert.
      destruct (code_in_use c db); cbn; discriminate.
    + rewrite (create_link_generated url cc rnd now Hu Tc).
      rewrite run_check_then_insert.
      destruct (code_in_use _ db); cbn; discriminate.
  - intros url H. unfold target_url_accepted.
    pose proof (scheme_startsWith url H) as Hs.
    cbn [truthy is_string js_startsWith]. rewrite Hs.
    destruct url; [discriminate Hs | reflexivity].
Qed.

Lemma create_target_url_validation_witness :
  run (create_link (JStr "ftp://example.com") JUndefined
                   (x00, x00, x00)%byte 1000) example_db
  = (bad_url_response, example_db)
  /\ status (fst (run (create_link (JStr "https://example.com") JUndefined
                                   (x00, x00, x00)%byte 1000) example_db))
     <> 400.
Proof.
  split.
  - apply (create_target_url_validation example_db
             (JStr "ftp://example.com") JUndefined
             (x00, x00, x00)%byte 1000).
    reflexivity.
  - apply (create_target_url_validation example_db
             (JStr "https://example.com") JUndefined
             (x00, x00, x00)%byte 1000); reflexivity.
Defined.

(** C10.  A request whose custom code is the empty string is handled exactly
    as one without a custom code: once the target URL is accepted, the
    handler goes on to check and insert the generated code, and it never
    answers with the 400 of the code format. *)
Theorem create_empty_custom_code_as_absent
    (target : jsval) (rnd : bytes3) (now : Z) :
  create_link target (JStr "") rnd now = create_link target JUndefined rnd now
  /\ create_link target (JStr "") rnd now
     = (if target_url_accepted target
        then check_then_insert (generateShortCode rnd)
                               (js_to_string target) now
        else Done bad_url_response)
  /\ forall db : DB,
       fst (run (create_link target (JStr "") rnd now) db)
       <> bad_code_response.
Proof.
  assert (create_link target (JStr "") rnd now
          = (if target_url_accepted target
             then check_then_insert (generateShortCode rnd)
                                    (js_to_string target) now
             else Done bad_url_response)) as E.
  { destruct (target_url_accepted target) eqn:Ht.
    - destruct (target_url_accepted_inv target Ht) as (url & -> & Hu).
      now rewrite (create_link_generated url (JStr "") rnd now Hu eq_refl).
    - now apply create_link_rejected_url. }
  split; [reflexivity | split; [exact E |]].
  intros db. rewrite E.
  destruct (target_url_accepted target); [| discriminate].
  rewrite run_check_then_insert.
  destruct (code_in_use _ db); discriminate.
Qed.

(** C4 as stated fails: when the generated candidate is taken, the request
    fails on that first collision -- it neither succeeds with another
    candidate nor ends as [AllocationExhausted]; the failure is a
    [CodeConflict]. *)
Lemma generated_collision_not_retried :
  ~ (forall (db : DB) (url : string) (rnd : bytes3) (now : Z),
        startsWith url "http" = true ->
        code_in_use (generateShortCode rnd) db = true ->
        let r := fst (run (create_link (JStr url) JUndefined rnd now) db) in
        succeeded r = true \/ error_kind r = Some AllocationExhausted).
Proof.
  intros H.
  specialize (H sample_db "https://example.com" (xd2, xfd, x3a)%byte 1000
                eq_refl eq_refl).
  vm_compute in H. destruct H as [H | H]; discriminate H.
Qed.

(** C4, amended.  For a request without a custom code the service draws one
    candidate and makes one attempt: when the candidate is already in use
    the request is answered 409, the [CodeConflict] kind, and nothing is
    written.  No answer of the creation handler is of the
    [AllocationExhausted] kind. *)
Theorem create_generated_single_attempt
    (db : DB) (url : string) (cc : jsval) (rnd : bytes3) (now : Z) :
  startsWith url "http" = true ->
  truthy cc = false ->
  code_in_use (generateShortCode rnd) db = true ->
  run (create_link (JStr url) cc rnd now) db = (conflict_response, db)
  /\ error_kind conflict_response = Some CodeConflict
  /\ forall (db' : DB) (target cc' : jsval) (rnd' : bytes3) (now' : Z),
       error_kind (fst (run (create_link target cc' rnd' now') db'))
       <> Some AllocationExhausted.
Proof.
  intros Hu Hc Hin. split; [| split].
  - now rewrite (create_link_generated url cc rnd now Hu Hc),
      run_check_then_insert, Hin.
  - reflexivity.
  - intros db' target cc' rnd' now'.
    destruct (create_link_answers db' target cc' rnd' now')
      as [-> | [-> | [-> | [l ->]]]]; discriminate.
Qed.

Lemma create_generated_single_attempt_witness :
  run (create_link (JStr "https://example.com") JUndefined
                   (xd2, xfd, x3a)%byte 1000) sample_db
  = (conflict_response, sample_db).
Proof.
  apply (create_generated_single_attempt sample_db "https://example.com"
           JUndefined (xd2, xfd, x3a)%byte 1000); reflexivity.
Defined.

(** C8 as stated fails: with a valid target URL and no custom code, the
    request is refused when the generated code is already in the table. *)
Lemma create_without_code_can_fail :
  ~ (forall (db : DB) (url : string) (rnd : bytes3) (now : Z),
        begins_with_http_scheme url = true ->
        succeeded (fst (run (create_link (JStr url) JUndefined rnd now) db))
        = true).
Proof.
  intros H.
  specialize (H sample_db "https://example.com" (xd2, xfd, x3a)%byte 1000
                eq_refl).
  vm_compute in H. discriminate H.
Qed.

(** C8, amended.  For an accepted target URL and no custom code, when the
    generated code is not already in use the request is answered 201 with a
    new link whose code is the generated one and matches the format rule,
    whose click count is 0 and last click null; a later [get] with that code
    returns this link, with the target URL given at creation. *)
Theorem create_then_get_round_trip
    (db : DB) (url : string) (rnd : bytes3) (now : Z) :
  startsWith url "http" = true ->
  code_in_use (generateShortCode rnd) db = false ->
  exists (link : Link) (db' : DB),
    run (create_link (JStr url) JUndefined rnd now) db
    = (mkResponse 201 (LinkJson link), db')
    /\ code link = generateShortCode rnd
    /\ code_format_ok (code link) = true
    /\ target_url link = url
    /\ clicks link = 0
    /\ last_clicked_at link = None
    /\ run (get_link (code link)) db'
       = (mkResponse 200 (StatsJson link), db').
Proof.
  intros Hu Hfree.
  exists (fresh_link db (generateShortCode rnd) url now).
  exists (with_new_row db (fresh_link db (generateShortCode rnd) url now)).
  rewrite (create_link_generated url JUndefined rnd now Hu eq_refl).
  rewrite run_check_then_insert, Hfree.
  repeat split.
  - apply generateShortCode_format.
  - rewrite run_get_link.
    now rewrite (lookup_with_new_row db
                   (fresh_link db (generateShortCode rnd) url now) Hfree).
Qed.

Lemma create_then_get_round_trip_witness :
  exists (link : Link) (db' : DB),
    run (create_link (JStr "https://example.com") JUndefined
                     (xa1, xb2, xc3)%byte 1000) sample_db
    = (mkResponse 201 (LinkJson link), db')
    /\ code link = "A1B2C"
    /\ target_url link = "https://example.com"
    /\ run (get_link "A1B2C") db' = (mkResponse 200 (StatsJson link), db').
Proof.
  destruct (create_then_get_round_trip sample_db "https://example.com"
              (xa1, xb2, xc3)%byte 1000 eq_refl eq_refl)
    as (link & db' & H1 & H2 & _ & H4 & _ & _ & H7).
  exists link, db'. rewrite H2 in H7.
  repeat split; assumption.
Defined.

(** ** Redirects *)

Lemma update_where_clicks (p : Link -> bool) (now : Z) (rs : list Link) :
  map clicks (update_where p (touch now) rs) = map clicks rs.
Proof.
  unfold update_where. rewrite map_map. apply map_ext.
  intros l. now destruct (p l).
Qed.

(** The redirect handler leaves every click count as it found it. *)
Lemma redirect_clicks_unchanged (db : DB) (c : string) (now : Z) :
  map clicks (rows (snd (run (redirect c now) db))) = map clicks (rows db).
Proof.
  unfold redirect. cbn [run exec].
  destruct (map target_url (filter (has_code c) (rows db)));
    cbn [run snd with_rows rows]; apply update_where_clicks.
Qed.

(** C1 at the spec's worked example: a link ["A1B2C"] with 0 clicks is
    visited at time 2000.  The answer is the 302 to its target and the two
    timestamps become 2000, but the click count is still 0, not 1. *)
Theorem redirect_does_not_count :
  exists db' : DB,
    run (redirect "A1B2C" 2000) example_db
    = (mkResponse 302 (Redirect "https://example.com"), db')
    /\ lookup "A1B2C" db'
       = Some (mkLink 1 "A1B2C" "https://example.com" 0 (Some 2000) 100 2000)
    /\ map clicks (rows db') = map clicks (rows example_db).
Proof.
  eexists. split; [reflexivity | split; reflexivity].
Qed.

(** ** Listing *)

Lemma insert_desc_perm (x : Link) (ls : list Link) :
  Permutation (insert_desc x ls) (x :: ls).
Proof.
  induction ls as [|y ls IH]; cbn [insert_desc]; [reflexivity |].
  destruct (created_at x <? created_at y); [| reflexivity].
  rewrite IH. apply perm_swap.
Qed.

Lemma order_by_created_desc_perm (ls : list Link) :
  Permutation (order_by_created_desc ls) ls.
Proof.
  induction ls as [|x ls IH]; cbn [order_by_created_desc]; [reflexivity |].
  rewrite insert_desc_perm. now constructor.
Qed.

Lemma insert_desc_sorted (x : Link) (ls : list Link) :
  StronglySorted newer_first ls ->
  StronglySorted newer_first (insert_desc x ls).
Proof.
  induction 1 as [|y ls Hs IH Hall]; cbn [insert_desc].
  - repeat constructor.
  - destruct (created_at x <? created_at y) eqn:E.
    + apply Z.ltb_lt in E. constructor; [exact IH |].
      apply (Permutation_Forall (Permutation_sym (insert_desc_perm x ls))).
      constructor; [unfold newer_first; lia | exact Hall].
    + apply Z.ltb_ge in E. constructor; [now constructor |].
      constructor; [exact E |].
      eapply Forall_impl; [| exact Hall].
      unfold newer_first. intros z Hz. lia.
Qed.

Lemma order_by_created_desc_sorted (ls : list Link) :
  StronglySorted newer_first (order_by_created_desc ls).
Proof.
  induction ls as [|x ls IH]; cbn [order_by_created_desc].
  - constructor.
  - now apply insert_desc_sorted.
Qed.

(** *** [LIKE] on patterns of the form [%term%] *)

Lemma like_percent (q s : string) :
  like (String "%" q) s
  = (like q s
     || match s with
        | EmptyString => false
        | String _ s' => like (String "%" q) s'
        end)%bool.
Proof. destruct s; reflexivity. Qed.

Lemma like_literal (c : ascii) (q s : string) :
  is_meta c = false ->
  like (String c q) s
  = match s with
    | EmptyString => false
    | String d s' => (Ascii.eqb c d && like q s')%bool
    end.
Proof.
  unfold is_meta. intros H.
  apply orb_false_elim in H. destruct H as [H H3].
  apply orb_false_elim in H. destruct H as [H1 H2].
  cbn [like]. rewrite H1, H2, H3. reflexivity.
Qed.

Lemma like_percent_only (s : string) : like "%" s = true.
Proof.
  induction s as [|c s IH]; [reflexivity |].
  rewrite like_percent. cbn [like]. exact IH.
Qed.

Lemma prefix_empty (s : string) : String.prefix "" s = true.
Proof. now destruct s. Qed.

Lemma like_literal_prefix (t s : string) :
  no_meta t = true ->
  like (t ++ "%") s = String.prefix t s.
Proof.
  revert s. induction t as [|c t IH]; intros s H.
  - cbn [append]. now rewrite like_percent_only, prefix_empty.
  - cbn [no_meta string_forall] in H. apply andb_prop in H.
    destruct H as [Hc Ht]. apply negb_true_iff in Hc.
    cbn [append]. rewrite (like_literal c (t ++ "%") s Hc).
    destruct s as [|d s]; [reflexivity |].
    cbn [String.prefix]. rewrite (IH s Ht).
    destruct (ascii_dec c d) as [-> | Hne].
    + now rewrite Ascii.eqb_refl.
    + apply Ascii.eqb_neq in Hne. now rewrite Hne.
Qed.

Lemma like_contains (t s : string) :
  no_meta t = true ->
  like ("%" ++ t ++ "%") s = is_substring t s.
Proof.
  intros H. cbn [append].
  induction s as [|d s IH].
  - rewrite like_percent, (like_literal_prefix t "" H). cbn [is_substring].
    reflexivity.
  - rewrite like_percent, (like_literal_prefix t (String d s) H), IH.
    reflexivity.
Qed.

Lemma is_substring_spec (t s : string) :
  is_substring t s = true <-> exists pre post : string, s = pre ++ t ++ post.
Proof.
  assert (P : forall u, String.prefix t u = true <-> exists post, u = t ++ post).
  { induction t as [|c t IHt]; intros u.
    - rewrite prefix_empty. split; [exists u; reflexivity | reflexivity].
    - destruct u as [|d u]; cbn [String.prefix append].
      + split; [discriminate | intros [post E]; discriminate E].
      + destruct (ascii_dec c d) as [-> | Hne].
        * rewrite IHt. split; intros [post E]; exists post;
            [now rewrite E | now injection E].
        * split; [discriminate |].
          intros [post E]. injection E as E1 _. congruence. }
  induction s as [|d s IH]; cbn [is_substring].
  - rewrite orb_false_r, P. split.
    + intros [post E]. now exists "", post.
    + intros (pre & post & E). destruct pre; [now exists post |].
      discriminate E.
  - rewrite orb_true_iff, P, IH. split.
    + intros [[post E] | (pre & post & E)].
      * now exists "", post.
      * exists (String d pre), post. cbn [append]. now rewrite E.
    + intros (pre & post & E). destruct pre as [|e pre].
      * left. now exists post.
      * right. cbn [append] in E. injection E as _ E. now exists pre, post.
Qed.

Lemma is_meta_to_lower (c : ascii) : is_meta (Chars.to_lower c) = is_meta c.
Proof.
  destruct c as [[] [] [] [] [] [] [] []]; vm_compute; reflexivity.
Qed.

Lemma no_meta_toLowerCase (t : string) :
  no_meta (toLowerCase t) = no_meta t.
Proof.
  unfold no_meta, toLowerCase.
  induction t as [|c t IH]; [reflexivity |].
  cbn [string_map string_forall]. now rewrite is_meta_to_lower, IH.
Qed.

Lemma search_hit_mentions (t : string) (l : Link) :
  no_meta t = true ->
  search_hit ("%" ++ toLowerCase t ++ "%") l = mentions t l.
Proof.
  intros H. unfold search_hit, mentions, contains_ci.
  rewrite <- no_meta_toLowerCase in H.
  now rewrite !(like_contains _ _ H).
Qed.

Lemma run_list_links (search : option string) (db : DB) :
  run (list_links search) db
  = (mkResponse 200
       (LinksJson
          (order_by_created_desc
             match search with
             | Some (String c s) =>
                 filter (search_hit ("%" ++ toLowerCase (String c s) ++ "%"))
                        (rows db)
             | _ => rows db
             end)), db).
Proof.
  destruct search as [[|c s] |]; reflexivity.
Qed.

Lemma mentions_spec (t : string) (l : Link) :
  mentions t l = true
  <-> (exists pre post, toLowerCase (code l) = pre ++ toLowerCase t ++ post)
      \/ (exists pre post,
             toLowerCase (target_url l) = pre ++ toLowerCase t ++ post).
Proof.
  unfold mentions, contains_ci.
  now rewrite orb_true_iff, !is_substring_spec.
Qed.

Lemma filter_all {A : Type} (p : A -> bool) (l : list A) :
  (forall x, p x = true) -> filter p l = l.
Proof.
  intros H. induction l as [|x l IH]; cbn; [reflexivity |].
  now rewrite H, IH.
Qed.

(** C9 as stated fails: the term ["_"] occurs neither in the code nor in the
    target URL of the example link, yet the search returns the link. *)
Lemma search_wildcard_overmatches :
  ~ (forall (db : DB) (t : string) (ls : list Link),
        run (list_links (Some t)) db = (mkResponse 200 (LinksJson ls), db) ->
        forall l : Link, In l ls -> mentions t l = true).
Proof.
  intros H.
  specialize (H example_db "_" (rows example_db) eq_refl
                (mkLink 1 "A1B2C" "https://example.com" 0 None 100 100)
                (or_introl eq_refl)).
  vm_compute in H. discriminate H.
Qed.

(** C9, amended.  [list] answers with the links ordered by [created_at]
    descending.  Without a search term these are all the links; when the
    stored codes and target URLs and the search term are ASCII text and the
    term is free of the [LIKE] characters [%], [_] and backslash, they are
    exactly the links whose code or target URL contains the term, letter
    case ignored, in the same descending order. *)
Theorem list_links_sorted_and_filtered (db : DB) (search : option string) :
  exists ls : list Link,
    run (list_links search) db = (mkResponse 200 (LinksJson ls), db)
    /\ StronglySorted newer_first ls
    /\ (search = None -> Permutation ls (rows db))
    /\ (forall t : string,
          search = Some t -> no_meta t = true ->
          ascii_text t = true -> ascii_table db = true ->
          Permutation ls (filter (mentions t) (rows db))).
Proof.
  eexists. split; [apply run_list_links |].
  split; [apply order_by_created_desc_sorted |].
  split.
  - intros ->. apply order_by_created_desc_perm.
  - intros t -> Ht _ _. rewrite order_by_created_desc_perm.
    destruct t as [|c t].
    + rewrite filter_all; [reflexivity |].
      intros l. unfold mentions, contains_ci. cbn. now destruct (code l).
    + erewrite filter_ext; [reflexivity |].
      intros l. now apply search_hit_mentions.
Qed.

Lemma list_links_sorted_and_filtered_witness :
  exists ls : list Link,
    run (list_links (Some "EXAMPLE")) sample_db
    = (mkResponse 200 (LinksJson ls), sample_db)
    /\ Permutation ls (filter (mentions "EXAMPLE") (rows sample_db)).
Proof.
  destruct (list_links_sorted_and_filtered sample_db (Some "EXAMPLE"))
    as (ls & H1 & _ & _ & H4).
  exists ls. split; [exact H1 |].
  apply (H4 "EXAMPLE"); reflexivity.
Defined.

(** ** Concurrent creation *)

Lemma code_in_use_new_row (db : DB) (l : Link) :
  code_in_use (code l) (with_new_row db l) = true.
Proof.
  unfold code_in_use, with_new_row. cbn [rows].
  rewrite existsb_app. cbn. unfold has_code.
  now rewrite String.eqb_refl, orb_true_r.
Qed.

Lemma create_custom_taken (X : string) (db : DB)
    (rs : list (string * bytes3 * Z)) :
  code_format_ok X = true ->
  code_in_use X db = true ->
  Forall (fun r => startsWith (fst (fst r)) "http" = true) rs ->
  run_all (map (create_custom X) rs) db
  = (repeat conflict_response (List.length rs), db).
Proof.
  intros Hfmt Hin. induction 1 as [|[[url rnd] now] rs Hu _ IH];
    [reflexivity |].
  cbn [map run_all create_custom List.length repeat].
  cbn [fst] in Hu.
  rewrite (create_existing_code_conflict_run db X url rnd now Hin Hfmt Hu).
  now rewrite IH.
Qed.

(** Creation requests for one free custom code, one after another: the
    first is answered 201, every later one 409, and one row is written. *)
Lemma create_custom_in_turn (X : string) (db : DB) (url : string)
    (rnd : bytes3) (now : Z) (rs : list (string * bytes3 * Z)) :
  code_format_ok X = true ->
  code_in_use X db = false ->
  startsWith url "http" = true ->
  Forall (fun r => startsWith (fst (fst r)) "http" = true) rs ->
  run_all (map (create_custom X) ((url, rnd, now) :: rs)) db
  = (mkResponse 201 (LinkJson (fresh_link db X url now))
       :: repeat conflict_response (List.length rs),
     with_new_row db (fresh_link db X url now)).
Proof.
  intros Hfmt Hfree Hu Hrs.
  cbn [map run_all create_custom].
  rewrite (create_link_custom url X rnd now Hu (format_ok_nonempty X Hfmt)).
  rewrite Hfmt, run_check_then_insert, Hfree.
  rewrite (create_custom_taken X _ rs Hfmt
             (code_in_use_new_row db (fresh_link db X url now)) Hrs).
  reflexivity.
Qed.

(** C3 at two concurrent requests for the free custom code ["promo"], both
    existence checks running before either insert.  Without a unique key on
    [code] both requests are answered 201 and the table holds two links with
    the same code; with a unique key the second insert raises and the
    request is answered 500, not 409.  One after the other, the same two
    requests are answered 201 and 409. *)
Theorem concurrent_create_race :
  run_sched [0; 1; 0; 1]%nat promo_requests (mkDB false 1 [])
  = ([Done (mkResponse 201 (LinkJson (promo_com 1)));
      Done (mkResponse 201 (LinkJson (promo_org 2)))],
     mkDB false 3 [promo_com 1; promo_org 2])
  /\ run_sched [0; 1; 0; 1]%nat promo_requests (mkDB true 1 [])
     = ([Done (mkResponse 201 (LinkJson (promo_com 1)));
         Done (json 500 "Failed to create link")],
        mkDB true 2 [promo_com 1])
  /\ forall u : bool,
       run_sched [0; 0; 1; 1]%nat promo_requests (mkDB u 1 [])
       = ([Done (mkResponse 201 (LinkJson (promo_com 1)));
           Done conflict_response],
          mkDB u 2 [promo_com 1]).
Proof.
  split; [reflexivity | split; [reflexivity |]].
  intros [|]; reflexivity.
Qed.

(** ** Concurrent increments *)

Lemma lookup_filter (c : string) (db : DB) (l : Link) :
  lookup c db = Some l ->
  exists rest, filter (has_code c) (rows db) = l :: rest.
Proof.
  unfold lookup. rewrite filter_find.
  destruct (filter (has_code c) (rows db)) as [|x rest]; [discriminate |].
  cbn. intros [= ->]. now exists rest.
Qed.

Lemma lookup_update_where (c : string) (f : Link -> Link) (db : DB)
    (l : Link) :
  (forall x, code (f x) = code x) ->
  lookup c db = Some l ->
  lookup c (with_rows db (update_where (has_code c) f (rows db)))
  = Some (f l).
Proof.
  intros Hf. unfold lookup, with_rows. cbn [rows].
  induction (rows db) as [|x rs IH]; cbn [find update_where map];
    [discriminate |].
  destruct (has_code c x) eqn:E.
  - intros [= ->]. unfold has_code in *. now rewrite Hf, E.
  - rewrite E. exact IH.
Qed.

Lemma step_inc_start (c : string) (now : Z) (db : DB) (l : Link) :
  lookup c db = Some l ->
  step (inc_task c (now, IncStart)) db
  = (inc_task c (now, IncRead (clicks l)), db).
Proof.
  intros H. destruct (lookup_filter c db l H) as [rest E].
  cbn [inc_task increment step exec]. rewrite E. reflexivity.
Qed.

Lemma step_inc_read (c : string) (now v : Z) (db : DB) (l : Link) :
  lookup c db = Some l ->
  step (inc_task c (now, IncRead v)) db
  = (inc_task c (now, IncDone v),
     with_rows db
       (update_where (has_code c) (set_clicks (v + 1) now) (rows db))).
Proof.
  intros H. destruct (lookup_filter c db l H) as [rest E].
  cbn [inc_task step exec]. rewrite E. reflexivity.
Qed.

Lemma replace_nth_map {A B : Type} (f : A -> B) (i : nat) (x : A)
    (l : list A) :
  replace_nth i (f x) (map f l) = map f (replace_nth i x l).
Proof.
  revert i. induction l as [|y l IH]; intros [|i]; cbn; try reflexivity.
  now rewrite IH.
Qed.

Lemma replace_nth_length {A : Type} (i : nat) (x : A) (l : list A) :
  List.length (replace_nth i x l) = List.length l.
Proof.
  revert i. induction l as [|y l IH]; intros [|i]; cbn; try reflexivity.
  now rewrite IH.
Qed.

Lemma replace_nth_Forall {A : Type} (P : A -> Prop) (i : nat) (x : A)
    (l : list A) :
  P x -> Forall P l -> Forall P (replace_nth i x l).
Proof.
  intros Hx. revert i. induction l as [|y l IH]; intros [|i] H; cbn;
    try assumption; inversion H; subst; constructor; auto.
Qed.

Lemma done_count_replace (i : nat) (old new : Z * inc_phase)
    (sts : list (Z * inc_phase)) :
  nth_error sts i = Some old ->
  done_count (replace_nth i new sts)
  = done_count sts - Z.b2z (phase_done old) + Z.b2z (phase_done new).
Proof.
  unfold done_count. revert i.
  induction sts as [|y sts IH]; intros [|i] H; cbn in H; try discriminate.
  - injection H as ->. cbn [replace_nth filter].
    destruct (phase_done old), (phase_done new); cbn [List.length Z.b2z];
      lia.
  - cbn [replace_nth filter]. specialize (IH i H).
    destruct (phase_done y); cbn [List.length]; lia.
Qed.

Lemma done_count_nonneg (sts : list (Z * inc_phase)) : 0 <= done_count sts.
Proof. unfold done_count. lia. Qed.

Lemma done_count_all (c : string) (sts : list (Z * inc_phase)) :
  forallb is_done (map (inc_task c) sts) = true ->
  done_count sts = Z.of_nat (List.length sts).
Proof.
  unfold done_count. induction sts as [|[now p] sts IH]; [reflexivity |].
  cbn [map forallb]. intros H. apply andb_prop in H. destruct H as [H1 H2].
  destruct p; try discriminate H1.
  cbn [filter phase_done snd List.length]. specialize (IH H2). lia.
Qed.

Lemma read_ok_mono (c0 w w' : Z) (st : Z * inc_phase) :
  w <= w' -> read_ok c0 w st -> read_ok c0 w' st.
Proof.
  unfold read_ok. destruct (snd st); auto. lia.
Qed.

Lemma inc_inv_step (c : string) (c0 : Z) (i : nat)
    (sts : list (Z * inc_phase)) (db : DB) (st : Z * inc_phase) :
  inc_inv c c0 sts db ->
  nth_error sts i = Some st ->
  exists (st' : Z * inc_phase) (db' : DB),
    step (inc_task c st) db = (inc_task c st', db')
    /\ inc_inv c c0 (replace_nth i st' sts) db'.
Proof.
  intros (l & Hl & Hb & Hall) E.
  pose proof (done_count_nonneg sts) as Hw.
  assert (Hst : read_ok c0 (done_count sts) st).
  { rewrite Forall_forall in Hall. apply Hall.
    eapply nth_error_In; eassumption. }
  destruct st as [now [|v|v]].
  - exists (now, IncRead (clicks l)), db.
    split; [now apply step_inc_start |].
    exists l. rewrite (done_count_replace i _ (now, IncRead (clicks l)) _ E).
    cbn [phase_done snd Z.b2z]. rewrite Z.sub_0_r, Z.add_0_r.
    split; [exact Hl | split; [exact Hb |]].
    apply replace_nth_Forall; [| exact Hall].
    unfold read_ok. cbn [snd]. lia.
  - exists (now, IncDone v).
    eexists. split; [now apply (step_inc_read c now v db l) |].
    exists (set_clicks (v + 1) now l).
    rewrite (done_count_replace i _ (now, IncDone v) _ E).
    cbn [phase_done snd Z.b2z]. unfold read_ok in Hst. cbn [snd] in Hst.
    split; [now apply lookup_update_where |].
    split; [cbn [set_clicks clicks]; lia |].
    apply replace_nth_Forall; [exact I |].
    eapply Forall_impl; [| exact Hall].
    intros a. apply read_ok_mono. lia.
  - exists (now, IncDone v), db. split; [reflexivity |].
    exists l. rewrite (done_count_replace i _ (now, IncDone v) _ E).
    cbn [phase_done snd Z.b2z].
    replace (done_count sts - 1 + 1) with (done_count sts) by lia.
    split; [exact Hl | split; [exact Hb |]].
    apply replace_nth_Forall; [exact I | exact Hall].
Qed.

Lemma run_sched_increments (c : string) (c0 : Z) (sched : list nat) :
  forall (sts : list (Z * inc_phase)) (db : DB),
    inc_inv c c0 sts db ->
    exists (sts' : list (Z * inc_phase)) (db' : DB),
      run_sched sched (map (inc_task c) sts) db
      = (map (inc_task c) sts', db')
      /\ inc_inv c c0 sts' db'
      /\ List.length sts' = List.length sts.
Proof.
  induction sched as [|i sched IH]; intros sts db Hinv.
  - exists sts, db. auto.
  - cbn [run_sched]. rewrite nth_error_map.
    destruct (nth_error sts i) as [st |] eqn:E; cbn [option_map].
    + destruct (inc_inv_step c c0 i sts db st Hinv E)
        as (st' & db' & Hstep & Hinv').
      rewrite Hstep, replace_nth_map.
      destruct (IH _ _ Hinv') as (sts' & db'' & Hrun & Hinv'' & Hlen).
      exists sts', db''. rewrite replace_nth_length in Hlen. auto.
    + now apply IH.
Qed.

Lemma inc_inv_initial (c : string) (db : DB) (l : Link) (nows : list Z) :
  lookup c db = Some l ->
  inc_inv c (clicks l) (map (fun now => (now, IncStart)) nows) db.
Proof.
  intros H. exists l.
  assert (done_count (map (fun now : Z => (now, IncStart)) nows) = 0) as ->.
  { unfold done_count. induction nows; [reflexivity | exact IHnows]. }
  split; [exact H | split; [cbn; lia |]].
  apply Forall_forall. intros st Hin. apply in_map_iff in Hin.
  destruct Hin as (now & <- & _). exact I.
Qed.

Lemma increments_as_phases (c : string) (nows : list Z) :
  map (increment c) nows
  = map (inc_task c) (map (fun now => (now, IncStart)) nows).
Proof. rewrite map_map. reflexivity. Qed.

(** The requests one after another: each adds 1. *)
Lemma run_increment (c : string) (now : Z) (db : DB) (l : Link) :
  lookup c db = Some l ->
  exists db' : DB,
    run (increment c now) db = (increment_ok (clicks l), db')
    /\ lookup c db' = Some (set_clicks (clicks l + 1) now l).
Proof.
  intros H. destruct (lookup_filter c db l H) as [rest E].
  eexists. split.
  - unfold increment. cbn [run exec]. rewrite E.
    cbn [map increment_after_select run exec with_rows rows].
    rewrite E. reflexivity.
  - now apply lookup_update_where.
Qed.

Lemma run_all_increments (c : string) (nows : list Z) :
  forall (db : DB) (l : Link),
    lookup c db = Some l ->
    exists (rs : list Response) (db' : DB) (l' : Link),
      run_all (map (increment c) nows) db = (rs, db')
      /\ lookup c db' = Some l'
      /\ clicks l' = clicks l + Z.of_nat (List.length nows).
Proof.
  induction nows as [|now nows IH]; intros db l H.
  - exists [], db, l. cbn. repeat split; [exact H | lia].
  - destruct (run_increment c now db l H) as (db1 & Hrun & Hl1).
    destruct (IH db1 _ Hl1) as (rs & db' & l' & Hall & Hl' & Hc).
    exists (increment_ok (clicks l) :: rs), db', l'.
    cbn [map run_all]. rewrite Hrun, Hall.
    repeat split; [exact Hl' |].
    rewrite Hc. cbn [set_clicks clicks List.length]. lia.
Qed.

(** C2 as stated fails: two increment requests whose reads both run before
    either write leave the counter at the original value plus 1. *)
Lemma concurrent_increment_loses_update :
  ~ (forall (db : DB) (c : string) (l : Link) (nows : list Z)
            (sched : list nat) (pool' : list task) (db' : DB),
        lookup c db = Some l ->
        nows <> [] ->
        run_sched sched (map (increment c) nows) db = (pool', db') ->
        forallb is_done pool' = true ->
        exists l' : Link,
          lookup c db' = Some l'
          /\ clicks l' = clicks l + Z.of_nat (List.length nows)).
Proof.
  intros H.
  destruct (H example_db "A1B2C" _ [2000; 2001] [0; 1; 0; 1]%nat _ _
              eq_refl ltac:(discriminate) eq_refl eq_refl)
    as (l' & Hl' & Hc).
  vm_compute in Hl'. injection Hl' as <-. vm_compute in Hc. discriminate Hc.
Qed.

(** C2, amended.  For N >= 1 requests to the increment endpoint against an
    existing code: under every interleaving of their statements that lets
    all of them finish, the final click count lies between the original
    value plus 1 and the original value plus N; when the requests run one
    after another it is the original value plus N. *)
Theorem increment_requests_bounds
    (db : DB) (c : string) (l : Link) (nows : list Z) :
  lookup c db = Some l ->
  nows <> [] ->
  (forall (sched : list nat) (pool' : list task) (db' : DB),
      run_sched sched (map (increment c) nows) db = (pool', db') ->
      forallb is_done pool' = true ->
      exists l' : Link,
        lookup c db' = Some l'
        /\ clicks l + 1 <= clicks l'
           <= clicks l + Z.of_nat (List.length nows))
  /\ exists (rs : list Response) (db' : DB) (l' : Link),
       run_all (map (increment c) nows) db = (rs, db')
       /\ lookup c db' = Some l'
       /\ clicks l' = clicks l + Z.of_nat (List.length nows).
Proof.
  intros Hl Hne. split; [| now apply run_all_increments].
  intros sched pool' db' Hrun Hdone.
  rewrite increments_as_phases in Hrun.
  destruct (run_sched_increments c (clicks l) sched _ db
              (inc_inv_initial c db l nows Hl))
    as (sts' & db'' & Hrun' & (l' & Hl' & Hb & _) & Hlen).
  rewrite Hrun' in Hrun. injection Hrun as <- <-.
  rewrite (done_count_all c sts' Hdone), Hlen, length_map in Hb.
  exists l'. split; [exact Hl' |].
  destruct nows as [|now nows]; [contradiction |].
  cbn [List.length] in *. lia.
Qed.

Lemma increment_requests_bounds_witness :
  exists l' : Link,
    lookup "A1B2C"
           (snd (run_sched [0; 1; 0; 1]%nat
                   (map (increment "A1B2C") [2000; 2001]) example_db))
    = Some l'
    /\ 0 + 1 <= clicks l' <= 0 + 2.
Proof.
  destruct (increment_requests_bounds example_db "A1B2C"
              (mkLink 1 "A1B2C" "https://example.com" 0 None 100 100)
              [2000; 2001] eq_refl ltac:(discriminate)) as [H _].
  apply (H [0; 1; 0; 1]%nat
           (fst (run_sched [0; 1; 0; 1]%nat
                   (map (increment "A1B2C") [2000; 2001]) example_db))
           _ eq_refl eq_refl).
Defined.

(** * Further properties *)

(** ** The code generator *)

Lemma hex_of_byte_digits (b : byte) :
  match toUpperCase (hex_of_byte b) with
  | String c1 (String c2 EmptyString) =>
      (is_upper_hex c1 && is_upper_hex c2
       && (hex_value c1 =? Byte.to_N b / 16)%N
       && (hex_value c2 =? Byte.to_N b mod 16)%N)%bool
  | _ => false
  end = true.
Proof. destruct b; vm_compute; reflexivity. Qed.

Lemma hex_of_byte_digits_inv (b : byte) :
  exists c1 c2 : ascii,
    toUpperCase (hex_of_byte b) = String c1 (String c2 "")
    /\ is_upper_hex c1 = true /\ is_upper_hex c2 = true
    /\ hex_value c1 = (Byte.to_N b / 16)%N
    /\ hex_value c2 = (Byte.to_N b mod 16)%N.
Proof.
  pose proof (hex_of_byte_digits b) as H.
  destruct (toUpperCase (hex_of_byte b)) as [|c1 [|c2 [|? ?]]];
    try discriminate H.
  repeat (apply andb_prop in H; destruct H as [H ?H]).
  exists c1, c2. repeat split; try assumption; now apply N.eqb_eq.
Qed.

Lemma byte_of_digits (a b : byte) :
  (Byte.to_N a / 16 = Byte.to_N b / 16)%N ->
  (Byte.to_N a mod 16 = Byte.to_N b mod 16)%N ->
  a = b.
Proof.
  intros Hq Hr.
  assert (E : Byte.to_N a = Byte.to_N b).
  { rewrite (N.div_mod (Byte.to_N a) 16), (N.div_mod (Byte.to_N b) 16)
      by discriminate.
    now rewrite Hq, Hr. }
  pose proof (Byte.of_to_N a) as Ha. rewrite E, Byte.of_to_N in Ha.
  now injection Ha.
Qed.

(** The five characters of a generated code: the two digits of the first
    byte, the two of the second, and the high digit of the third. *)
Lemma generateShortCode_digits (b0 b1 b2 : byte) :
  exists c1 c2 c3 c4 c5 c6 : ascii,
    generateShortCode (b0, b1, b2)
    = String c1 (String c2 (String c3 (String c4 (String c5 ""))))
    /\ toUpperCase (hex_of_byte b0) = String c1 (String c2 "")
    /\ toUpperCase (hex_of_byte b1) = String c3 (String c4 "")
    /\ toUpperCase (hex_of_byte b2) = String c5 (String c6 "").
Proof.
  destruct (hex_of_byte_digits_inv b0) as (c1 & c2 & E0 & _).
  destruct (hex_of_byte_digits_inv b1) as (c3 & c4 & E1 & _).
  destruct (hex_of_byte_digits_inv b2) as (c5 & c6 & E2 & _).
  exists c1, c2, c3, c4, c5, c6.
  split; [| auto].
  unfold generateShortCode, hex_of_bytes3, toUpperCase in *.
  rewrite !string_map_app, E0, E1, E2. reflexivity.
Qed.

(** X1.  A generated code has exactly five characters, each an upper-case
    hexadecimal digit. *)
Theorem generateShortCode_upper_hex (r : bytes3) :
  String.length (generateShortCode r) = 5%nat
  /\ string_forall is_upper_hex (generateShortCode r) = true.
Proof.
  destruct r as [[b0 b1] b2].
  destruct (generateShortCode_digits b0 b1 b2)
    as (c1 & c2 & c3 & c4 & c5 & c6 & E & E0 & E1 & E2).
  destruct (hex_of_byte_digits_inv b0) as (x1 & x2 & F0 & H1 & H2 & _).
  destruct (hex_of_byte_digits_inv b1) as (x3 & x4 & F1 & H3 & H4 & _).
  destruct (hex_of_byte_digits_inv b2) as (x5 & x6 & F2 & H5 & _).
  rewrite E0 in F0. rewrite E1 in F1. rewrite E2 in F2.
  injection F0 as -> ->. injection F1 as -> ->. injection F2 as -> ->.
  rewrite E. split; [reflexivity |].
  cbn [string_forall]. now rewrite H1, H2, H3, H4, H5.
Qed.

(** X2.  Two draws of random bytes give the same code exactly when they
    agree on the first two bytes and on the high four bits of the third:
    the low four bits of the third byte are dropped, and nothing else is. *)
Theorem generateShortCode_same_code (a0 a1 a2 b0 b1 b2 : byte) :
  generateShortCode (a0, a1, a2) = generateShortCode (b0, b1, b2)
  <-> a0 = b0 /\ a1 = b1
      /\ (Byte.to_N a2 / 16 = Byte.to_N b2 / 16)%N.
Proof.
  destruct (generateShortCode_digits a0 a1 a2)
    as (c1 & c2 & c3 & c4 & c5 & c6 & Ea & Ea0 & Ea1 & Ea2).
  destruct (generateShortCode_digits b0 b1 b2)
    as (d1 & d2 & d3 & d4 & d5 & d6 & Eb & Eb0 & Eb1 & Eb2).
  destruct (hex_of_byte_digits_inv a0) as (x1 & x2 & Fa0 & _ & _ & Va1 & Va2).
  destruct (hex_of_byte_digits_inv a1) as (x3 & x4 & Fa1 & _ & _ & Va3 & Va4).
  destruct (hex_of_byte_digits_inv a2) as (x5 & x6 & Fa2 & Ua5 & _ & Va5 & _).
  destruct (hex_of_byte_digits_inv b0) as (y1 & y2 & Fb0 & _ & _ & Vb1 & Vb2).
  destruct (hex_of_byte_digits_inv b1) as (y3 & y4 & Fb1 & _ & _ & Vb3 & Vb4).
  destruct (hex_of_byte_digits_inv b2) as (y5 & y6 & Fb2 & Ub5 & _ & Vb5 & _).
  rewrite Ea0 in Fa0. rewrite Ea1 in Fa1. rewrite Ea2 in Fa2.
  rewrite Eb0 in Fb0. rewrite Eb1 in Fb1. rewrite Eb2 in Fb2.
  injection Fa0 as -> ->. injection Fa1 as -> ->. injection Fa2 as -> ->.
  injection Fb0 as -> ->. injection Fb1 as -> ->. injection Fb2 as -> ->.
  rewrite Ea, Eb. split.
  - intros [= -> -> -> -> ->].
    repeat split.
    + apply byte_of_digits; congruence.
    + apply byte_of_digits; congruence.
    + congruence.
  - intros (-> & -> & Hq).
    rewrite Eb0 in Ea0. rewrite Eb1 in Ea1.
    injection Ea0 as -> ->. injection Ea1 as -> ->.
    assert (x5 = y5) as ->; [| reflexivity].
    assert (H : forall b : byte,
               toUpperCase (hex_of_byte b)
               = String (Chars.to_upper (hex_digit (Byte.to_N b / 16)))
                   (String (Chars.to_upper (hex_digit (Byte.to_N b mod 16)))
                           "")) by reflexivity.
    rewrite H in Ea2, Eb2. rewrite Hq in Ea2.
    injection Ea2 as <- _. injection Eb2 as <- _. reflexivity.
Qed.

(** ** Rows of other codes *)

Lemma with_rows_same (db : DB) : with_rows db (rows db) = db.
Proof. now destruct db. Qed.

Lemma update_where_none (p : Link -> bool) (f : Link -> Link)
    (rs : list Link) :
  existsb p rs = false -> update_where p f rs = rs.
Proof.
  unfold update_where. induction rs as [|x rs IH]; cbn; [reflexivity |].
  destruct (p x); cbn; [discriminate |]. intros H. now rewrite IH.
Qed.

Lemma filter_negb_none {A : Type} (p : A -> bool) (rs : list A) :
  existsb p rs = false -> filter (fun x => negb (p x)) rs = rs.
Proof.
  induction rs as [|x rs IH]; cbn; [reflexivity |].
  destruct (p x); cbn; [discriminate |]. intros H. now rewrite IH.
Qed.

Lemma has_code_other (c c' : string) (x : Link) :
  c' <> c -> has_code c x = true -> has_code c' x = false.
Proof.
  unfold has_code. intros Hne H. apply String.eqb_eq in H.
  apply String.eqb_neq. congruence.
Qed.

Lemma filter_other_update (c c' : string) (f : Link -> Link)
    (rs : list Link) :
  (forall x, code (f x) = code x) ->
  c' <> c ->
  filter (has_code c') (update_where (has_code c) f rs)
  = filter (has_code c') rs.
Proof.
  intros Hf Hne. unfold update_where.
  induction rs as [|x rs IH]; cbn [map]; [reflexivity |].
  destruct (has_code c x) eqn:E; cbn [filter]; rewrite IH; [| reflexivity].
  pose proof (has_code_other c c' x Hne E) as Hx. rewrite Hx.
  assert (has_code c' (f x) = false) as ->; [| reflexivity].
  unfold has_code in *. now rewrite Hf.
Qed.

Lemma filter_other_delete (c c' : string) (rs : list Link) :
  c' <> c ->
  filter (has_code c') (filter (fun l => negb (has_code c l)) rs)
  = filter (has_code c') rs.
Proof.
  intros Hne. induction rs as [|x rs IH]; cbn [filter]; [reflexivity |].
  destruct (has_code c x) eqn:E; cbn [negb filter].
  - now rewrite (has_code_other c c' x Hne E).
  - now rewrite IH.
Qed.

Lemma existsb_filter_negb {A : Type} (p : A -> bool) (rs : list A) :
  existsb p (filter (fun x => negb (p x)) rs) = false.
Proof.
  induction rs as [|x rs IH]; cbn; [reflexivity |].
  destruct (p x) eqn:E; cbn; [exact IH | now rewrite E].
Qed.

Lemma lookup_not_in_use (c : string) (db : DB) :
  code_in_use c db = false -> lookup c db = None.
Proof.
  unfold code_in_use, lookup. intros H.
  rewrite filter_find, (filter_nil_existsb _ _ H). reflexivity.
Qed.

Lemma lookup_in_use (c : string) (db : DB) (l : Link) :
  lookup c db = Some l -> code_in_use c db = true.
Proof.
  unfold code_in_use, lookup. intros H.
  destruct (existsb (has_code c) (rows db)) eqn:E; [reflexivity |].
  rewrite filter_find, (filter_nil_existsb _ _ E) in H. discriminate H.
Qed.

(** ** Deletion *)

(** X3.  Deleting a code that no link carries is answered 404 and leaves
    the table as it was. *)
Theorem delete_missing_code (db : DB) (c : string) :
  code_in_use c db = false ->
  run (delete_link c) db = (not_found_json, db).
Proof.
  unfold code_in_use, delete_link. intros H. cbn [run exec].
  rewrite (filter_nil_existsb _ _ H), (filter_negb_none _ _ H).
  now rewrite with_rows_same.
Qed.

Lemma delete_missing_code_witness :
  run (delete_link "nosuch") example_db = (not_found_json, example_db).
Proof. apply (delete_missing_code example_db "nosuch"). reflexivity. Defined.

Lemma run_delete_existing (db : DB) (c : string) :
  code_in_use c db = true ->
  exists db' : DB,
    run (delete_link c) db
    = (mkResponse 200 (MessageJson "Link deleted successfully"), db')
    /\ rows db' = rows_without c db
    /\ code_in_use c db' = false
    /\ run (get_link c) db' = (not_found_json, db')
    /\ forall c' : string, c' <> c -> rows_with c' db' = rows_with c' db.
Proof.
  intros H. exists (with_rows db (rows_without c db)).
  assert (Hfree : code_in_use c (with_rows db (rows_without c db)) = false).
  { unfold code_in_use, with_rows, rows_without. cbn [rows].
    apply existsb_filter_negb. }
  split; [| split; [reflexivity | split; [exact Hfree | split]]].
  - unfold delete_link. cbn [run exec].
    destruct (filter_cons_existsb _ _ H) as (x & rest & ->). reflexivity.
  - now rewrite run_get_link, (lookup_not_in_use _ _ Hfree).
  - intros c' Hne. unfold rows_with, with_rows, rows_without. cbn [rows].
    now apply filter_other_delete.
Qed.

(** X4.  Deleting a code in use is answered 200; it removes every row with
    that code and no other row, so that afterwards the code is free, a
    lookup of it is answered 404, and the rows of every other code are what
    they were. *)
Theorem delete_existing_code (db : DB) (c : string) :
  code_in_use c db = true ->
  exists db' : DB,
    run (delete_link c) db
    = (mkResponse 200 (MessageJson "Link deleted successfully"), db')
    /\ rows db' = rows_without c db
    /\ code_in_use c db' = false
    /\ run (get_link c) db' = (not_found_json, db')
    /\ forall c' : string, c' <> c -> rows_with c' db' = rows_with c' db.
Proof. exact (run_delete_existing db c). Qed.

Lemma delete_existing_code_witness :
  exists db' : DB,
    run (delete_link "A1B2C") example_db
    = (mkResponse 200 (MessageJson "Link deleted successfully"), db')
    /\ code_in_use "A1B2C" db' = false.
Proof.
  destruct (delete_existing_code example_db "A1B2C" eq_refl)
    as (db' & H1 & _ & H3 & _).
  exists db'. split; assumption.
Defined.

(** X5.  A deleted code can be taken again at once: after the deletion of
    [X], a creation request for the custom code [X] is answered 201 with a
    link that carries [X] and the new target URL. *)
Theorem delete_then_create_reuses_code
    (db : DB) (X url : string) (rnd : bytes3) (now : Z) :
  code_in_use X db = true ->
  code_format_ok X = true ->
  startsWith url "http" = true ->
  exists (link : Link) (db1 db2 : DB),
    run (delete_link X) db
    = (mkResponse 200 (MessageJson "Link deleted successfully"), db1)
    /\ run (create_link (JStr url) (JStr X) rnd now) db1
       = (mkResponse 201 (LinkJson link), db2)
    /\ code link = X /\ target_url link = url
    /\ lookup X db2 = Some link.
Proof.
  intros Hin Hfmt Hu.
  destruct (run_delete_existing db X Hin) as (db1 & Hdel & _ & Hfree & _).
  exists (fresh_link db1 X url now), db1,
    (with_new_row db1 (fresh_link db1 X url now)).
  split; [exact Hdel |].
  rewrite (create_link_custom url X rnd now Hu (format_ok_nonempty X Hfmt)).
  rewrite Hfmt, run_check_then_insert, Hfree.
  repeat split.
  now apply (lookup_with_new_row db1 (fresh_link db1 X url now)).
Qed.

Lemma delete_then_create_reuses_code_witness :
  exists (link : Link) (db1 db2 : DB),
    run (delete_link "A1B2C") example_db
    = (mkResponse 200 (MessageJson "Link deleted successfully"), db1)
    /\ run (create_link (JStr "https://example.org") (JStr "A1B2C")
                        (x00, x00, x00)%byte 3000) db1
       = (mkResponse 201 (LinkJson link), db2)
    /\ target_url link = "https://example.org".
Proof.
  destruct (delete_then_create_reuses_code example_db "A1B2C"
              "https://example.org" (x00, x00, x00)%byte 3000
              eq_refl eq_refl eq_refl)
    as (link & db1 & db2 & H1 & H2 & _ & H4 & _).
  exists link, db1, db2. repeat split; assumption.
Defined.

(** ** Redirects and increments, one request at a time *)

Lemma update_where_codes (p : Link -> bool) (f : Link -> Link)
    (rs : list Link) :
  (forall x, code (f x) = code x) ->
  map code (update_where p f rs) = map code rs.
Proof.
  intros Hf. unfold update_where. rewrite map_map. apply map_ext.
  intros l. now destruct (p l).
Qed.

Lemma update_where_targets (p : Link -> bool) (f : Link -> Link)
    (rs : list Link) :
  (forall x, target_url (f x) = target_url x) ->
  map target_url (update_where p f rs) = map target_url rs.
Proof.
  intros Hf. unfold update_where. rewrite map_map. apply map_ext.
  intros l. now destruct (p l).
Qed.

(** X6.  A visit to a code that no link carries is answered 404 and leaves
    the table as it was. *)
Theorem redirect_missing_code (db : DB) (c : string) (now : Z) :
  code_in_use c db = false ->
  run (redirect c now) db = (mkResponse 404 (Text "Link not found"), db).
Proof.
  unfold code_in_use, redirect. intros H. cbn [run exec].
  rewrite (filter_nil_existsb _ _ H), (update_where_none _ _ _ H).
  now rewrite with_rows_same.
Qed.

Lemma redirect_missing_code_witness :
  run (redirect "nosuch" 2000) example_db
  = (mkResponse 404 (Text "Link not found"), example_db).
Proof.
  apply (redirect_missing_code example_db "nosuch" 2000). reflexivity.
Defined.

(** X7.  A visit to a code in use is answered 302 with the target URL of
    its link.  It stamps the link with the time of the visit and changes
    nothing else: the codes and target URLs of the table and the rows of
    every other code are what they were. *)
Theorem redirect_existing_code (db : DB) (c : string) (now : Z) (l : Link) :
  lookup c db = Some l ->
  exists db' : DB,
    run (redirect c now) db = (mkResponse 302 (Redirect (target_url l)), db')
    /\ lookup c db' = Some (touch now l)
    /\ codes db' = codes db
    /\ map target_url (rows db') = map target_url (rows db)
    /\ forall c' : string, c' <> c -> rows_with c' db' = rows_with c' db.
Proof.
  intros H. destruct (lookup_filter c db l H) as [rest E].
  exists (with_rows db (update_where (has_code c) (touch now) (rows db))).
  split; [| split; [| split; [| split]]].
  - unfold redirect. cbn [run exec]. rewrite E. reflexivity.
  - now apply lookup_update_where.
  - unfold codes. cbn [with_rows rows]. now apply update_where_codes.
  - cbn [with_rows rows]. now apply update_where_targets.
  - intros c' Hne. unfold rows_with. cbn [with_rows rows].
    now apply filter_other_update.
Qed.

Lemma redirect_existing_code_witness :
  exists db' : DB,
    run (redirect "D2FD3" 2000) sample_db
    = (mkResponse 302 (Redirect "https://example.com"), db')
    /\ codes db' = codes sample_db.
Proof.
  destruct (redirect_existing_code sample_db "D2FD3" 2000 _ eq_refl)
    as (db' & H1 & _ & H3 & _).
  exists db'. split; assumption.
Defined.

(** X8.  An increment request for a code that no link carries is answered
    404 and leaves the table as it was. *)
Theorem increment_missing_code (db : DB) (c : string) (now : Z) :
  code_in_use c db = false ->
  run (increment c now) db = (not_found_json, db).
Proof.
  unfold code_in_use, increment. intros H. cbn [run exec].
  now rewrite (filter_nil_existsb _ _ H).
Qed.

Lemma increment_missing_code_witness :
  run (increment "nosuch" 2000) example_db = (not_found_json, example_db).
Proof.
  apply (increment_missing_code example_db "nosuch" 2000). reflexivity.
Defined.

(** X9.  An increment request running alone against a code in use is
    answered 200 with [newClicks] one above the stored count, and that is
    the count it stores: a lookup afterwards reports the same number.  The
    link is stamped with the time of the request; no code or target URL
    changes, and the rows of every other code are what they were. *)
Theorem increment_existing_code (db : DB) (c : string) (now : Z) (l : Link) :
  lookup c db = Some l ->
  exists db' : DB,
    run (increment c now) db
    = (mkResponse 200
         (IncrementJson "Clicks incremented successfully" (clicks l + 1)),
       db')
    /\ lookup c db' = Some (set_clicks (clicks l + 1) now l)
    /\ run (get_link c) db'
       = (mkResponse 200 (StatsJson (set_clicks (clicks l + 1) now l)), db')
    /\ codes db' = codes db
    /\ map target_url (rows db') = map target_url (rows db)
    /\ forall c' : string, c' <> c -> rows_with c' db' = rows_with c' db.
Proof.
  intros H. destruct (lookup_filter c db l H) as [rest E].
  exists (with_rows db
            (update_where (has_code c) (set_clicks (clicks l + 1) now)
                          (rows db))).
  assert (L : lookup c
                (with_rows db
                   (update_where (has_code c) (set_clicks (clicks l + 1) now)
                                 (rows db)))
              = Some (set_clicks (clicks l + 1) now l))
    by now apply lookup_update_where.
  split; [| split; [exact L | split; [| split; [| split]]]].
  - unfold increment. cbn [run exec]. rewrite E.
    cbn [map increment_after_select run exec]. rewrite E. reflexivity.
  - now rewrite run_get_link, L.
  - unfold codes. cbn [with_rows rows]. now apply update_where_codes.
  - cbn [with_rows rows]. now apply update_where_targets.
  - intros c' Hne. unfold rows_with. cbn [with_rows rows].
    now apply filter_other_update.
Qed.

Lemma increment_existing_code_witness :
  exists db' : DB,
    run (increment "D2FD3" 2000) sample_db
    = (mkResponse 200
         (IncrementJson "Clicks incremented successfully" 5), db')
    /\ codes db' = codes sample_db.
Proof.
  destruct (increment_existing_code sample_db "D2FD3" 2000 _ eq_refl)
    as (db' & H1 & _ & _ & H4 & _).
  exists db'. split; assumption.
Defined.

(** ** Creation with a custom code *)

(** X10.  For an accepted target URL and a free custom code of the code
    format, the request is answered 201 with a link that carries exactly
    that code and that URL; a later lookup of the code returns this link.
    The new row is added after the existing rows, which are unchanged. *)
Theorem create_custom_then_get
    (db : DB) (X url : string) (rnd : bytes3) (now : Z) :
  code_in_use X db = false ->
  code_format_ok X = true ->
  startsWith url "http" = true ->
  exists (link : Link) (db' : DB),
    run (create_link (JStr url) (JStr X) rnd now) db
    = (mkResponse 201 (LinkJson link), db')
    /\ code link = X /\ target_url link = url
    /\ created_at link = now /\ updated_at link = now
    /\ rows db' = (rows db ++ [link])%list
    /\ run (get_link X) db' = (mkResponse 200 (StatsJson link), db').
Proof.
  intros Hfree Hfmt Hu.
  exists (fresh_link db X url now), (with_new_row db (fresh_link db X url now)).
  rewrite (create_link_custom url X rnd now Hu (format_ok_nonempty X Hfmt)).
  rewrite Hfmt, run_check_then_insert, Hfree.
  repeat split.
  pose proof (lookup_with_new_row db (fresh_link db X url now) Hfree) as L.
  cbn [fresh_link code] in L. now rewrite run_get_link, L.
Qed.

Lemma create_custom_then_get_witness :
  exists (link : Link) (db' : DB),
    run (create_link (JStr "https://example.org") (JStr "promo")
                     (x00, x00, x00)%byte 3000) example_db
    = (mkResponse 201 (LinkJson link), db')
    /\ run (get_link "promo") db' = (mkResponse 200 (StatsJson link), db').
Proof.
  destruct (create_custom_then_get example_db "promo" "https://example.org"
              (x00, x00, x00)%byte 3000 eq_refl eq_refl eq_refl)
    as (link & db' & H1 & _ & _ & _ & _ & _ & H7).
  exists link, db'. split; assumption.
Defined.

(** The creation handler either answers at once or goes on to check and
    insert a code matching [[a-zA-Z0-9]+] with a target URL starting with
    [http]. *)
Lemma create_link_shape (target cc : jsval) (rnd : bytes3) (now : Z) :
  create_link target cc rnd now = Done bad_url_response
  \/ create_link target cc rnd now = Done bad_code_response
  \/ exists c t : string,
       create_link target cc rnd now = check_then_insert c t now
       /\ alnum_plus c = true /\ startsWith t "http" = true.
Proof.
  destruct (target_url_accepted target) eqn:Ht.
  - destruct (target_url_accepted_inv target Ht) as (url & -> & Hu).
    unfold create_link. rewrite (target_checks url Hu).
    match goal with
    | |- context [alnum_plus ?s] => destruct (alnum_plus s) eqn:Ha
    end.
    + match goal with
      | |- context [js_length_gt ?v 8] => destruct (js_length_gt v 8)
      end; cbn [orb negb]; [right; left; reflexivity |].
      right; right. do 2 eexists. split; [reflexivity |]. split; assumption.
    + rewrite orb_true_r. right; left; reflexivity.
  - left. now apply create_link_rejected_url.
Qed.

Lemma run_create_link_cases
    (db : DB) (target cc : jsval) (rnd : bytes3) (now : Z) :
  (exists link : Link,
      run (create_link target cc rnd now) db
      = (mkResponse 201 (LinkJson link),
         mkDB (code_unique db) (next_id db + 1) (rows db ++ [link])%list)
      /\ code_in_use (code link) db = false
      /\ row_ok link = true)
  \/ (snd (run (create_link target cc rnd now) db) = db
      /\ (fst (run (create_link target cc rnd now) db) = bad_url_response
          \/ fst (run (create_link target cc rnd now) db) = bad_code_response
          \/ fst (run (create_link target cc rnd now) db)
             = conflict_response)).
Proof.
  destruct (create_link_shape target cc rnd now)
    as [-> | [-> | (c & t & -> & Hc & Ht)]].
  - right. cbn. auto.
  - right. cbn. auto.
  - rewrite run_check_then_insert.
    destruct (code_in_use c db) eqn:E.
    + right. cbn. auto.
    + left. exists (fresh_link db c t now).
      split; [reflexivity | split; [exact E |]].
      unfold row_ok. cbn [fresh_link code target_url]. now rewrite Hc, Ht.
Qed.

(** X11.  For a request whose custom code is absent or a scalar (a string,
    a boolean, null, or an integer of magnitude at most 2^53 - 1), the
    creation handler running alone either answers 201 and adds one row
    after the existing ones, or answers 400 or 409 and leaves the table as
    it was; it never changes or removes an existing row. *)
Theorem create_link_outcome
    (db : DB) (target cc : jsval) (rnd : bytes3) (now : Z) :
  safe_scalar cc = true ->
  (exists link : Link,
      run (create_link target cc rnd now) db
      = (mkResponse 201 (LinkJson link),
         mkDB (code_unique db) (next_id db + 1) (rows db ++ [link])%list)
      /\ code_in_use (code link) db = false
      /\ row_ok link = true)
  \/ (snd (run (create_link target cc rnd now) db) = db
      /\ (fst (run (create_link target cc rnd now) db) = bad_url_response
          \/ fst (run (create_link target cc rnd now) db) = bad_code_response
          \/ fst (run (create_link target cc rnd now) db)
             = conflict_response)).
Proof. intros _. exact (run_create_link_cases db target cc rnd now). Qed.

Lemma create_link_outcome_witness :
  exists link : Link,
    run (create_link (JStr "https://example.org") (JStr "promo")
                     (x00, x00, x00)%byte 3000) example_db
    = (mkResponse 201 (LinkJson link),
       mkDB true 3 (rows example_db ++ [link])%list)
    /\ row_ok link = true.
Proof.
  destruct (create_link_outcome example_db (JStr "https://example.org")
              (JStr "promo") (x00, x00, x00)%byte 3000 eq_refl)
    as [(link & H1 & _ & H3) | [H _]].
  - exists link. split; [exact H1 | exact H3].
  - vm_compute in H. discriminate H.
Defined.

(** ** A deletion between the two statements of an increment *)

(** X12.  When a link is deleted after an increment request has read its
    counter and before the request writes it back, the write finds no row:
    the increment request is answered 404, the deletion 200, and the link
    stays deleted. *)
Theorem increment_overtaken_by_delete
    (db : DB) (c : string) (now : Z) (l : Link) :
  lookup c db = Some l ->
  run_sched [0; 1; 0]%nat [increment c now; delete_link c] db
  = ([Done not_found_json; Done deleted_response],
     with_rows db (rows_without c db)).
Proof.
  intros H. destruct (lookup_filter c db l H) as [rest E].
  cbn [run_sched nth_error step increment delete_link exec replace_nth].
  rewrite E.
  cbn [map increment_after_select run_sched nth_error step exec replace_nth
       with_rows rows].
  assert (F : existsb (has_code c)
                (filter (fun x => negb (has_code c x)) (rows db)) = false)
    by apply existsb_filter_negb.
  rewrite (filter_nil_existsb _ _ F), (update_where_none _ _ _ F).
  reflexivity.
Qed.

Lemma increment_overtaken_by_delete_witness :
  run_sched [0; 1; 0]%nat [increment "A1B2C" 2000; delete_link "A1B2C"]
            example_db
  = ([Done not_found_json; Done deleted_response],
     with_rows example_db (rows_without "A1B2C" example_db)).
Proof.
  apply (increment_overtaken_by_delete example_db "A1B2C" 2000
           (mkLink 1 "A1B2C" "https://example.com" 0 None 100 100)).
  reflexivity.
Defined.

(** ** Routing *)

Lemma dispatch_never_health (m : http_method) (p : list string) :
  dispatch m p <> Some RouteHealth.
Proof.
  unfold dispatch, routes.
  destruct m; destruct p as [|a [|b [|c [|d p]]]];
    cbn [first_match verb_serves];
    repeat match goal with
           | |- context [if ?b then _ else _] => destruct b
           end; discriminate.
Qed.

(** X13.  The route [/:code] is registered before [/health] and matches
    every path of one segment, so the health check never answers: no
    request is served [{ status: 'OK' }], and a [GET] or [HEAD] of any
    one-segment path, [/health] included, is served by the redirect handler
    with that segment as the code. *)
Theorem health_check_shadowed
    (h : http_request) (rnd : bytes3) (now : Z) (db : DB) :
  fst (serve h rnd now db) <> HealthOK
  /\ forall c : string,
       path h = [c] ->
       method h = GET \/ method h = HEAD ->
       serve h rnd now db
       = (Answer (fst (run (redirect c now) db)),
          snd (run (redirect c now) db)).
Proof.
  split.
  - unfold serve.
    destruct (dispatch (method h) (path h)) as [r |] eqn:E;
      [| discriminate].
    destruct r; cbn [route_task];
      try (destruct (run _ db); discriminate).
    now destruct (dispatch_never_health _ _ E).
  - intros c Hp Hm. unfold serve. rewrite Hp.
    assert (dispatch (method h) [c] = Some (RouteRedirect c)) as ->.
    { destruct Hm as [-> | ->]; reflexivity. }
    cbn [route_task]. now destruct (run (redirect c now) db).
Qed.

Lemma health_check_shadowed_witness :
  serve (mkRequest GET ["health"] JUndefined JUndefined None)
        (x00, x00, x00)%byte 2000 example_db
  = (Answer (mkResponse 404 (Text "Link not found")), example_db).
Proof.
  destruct (health_check_shadowed
              (mkRequest GET ["health"] JUndefined JUndefined None)
              (x00, x00, x00)%byte 2000 example_db) as [_ H].
  exact (H "health" eq_refl (or_introl eq_refl)).
Defined.

(** ** What the table holds, under every interleaving *)

Lemma row_ok_same (f : Link -> Link) (x : Link) :
  code (f x) = code x -> target_url (f x) = target_url x ->
  row_ok x = true -> row_ok (f x) = true.
Proof. unfold row_ok. now intros -> ->. Qed.

Lemma update_where_table_ok (p : Link -> bool) (f : Link -> Link)
    (rs : list Link) :
  (forall x, code (f x) = code x) ->
  (forall x, target_url (f x) = target_url x) ->
  Forall (fun l => row_ok l = true) rs ->
  Forall (fun l => row_ok l = true) (update_where p f rs).
Proof.
  intros Hc Ht H. unfold update_where. apply Forall_map.
  eapply Forall_impl; [| exact H].
  intros x Hx. cbv beta. destruct (p x); [| exact Hx].
  now apply row_ok_same.
Qed.

Lemma filter_table_ok (p : Link -> bool) (rs : list Link) :
  Forall (fun l => row_ok l = true) rs ->
  Forall (fun l => row_ok l = true) (filter p rs).
Proof.
  rewrite !Forall_forall. intros H x Hx.
  apply filter_In in Hx. now apply H.
Qed.

Lemma exec_table_ok {A : Type} (s : stmt A) (db : DB) :
  stmt_ok s -> table_ok db -> table_ok (snd (exec s db)).
Proof.
  unfold table_ok. intros Hs Hdb.
  destruct s; cbn [exec snd with_rows rows]; try exact Hdb.
  - destruct (code_unique db && existsb (has_code c) (rows db))%bool;
      cbn [snd rows]; [exact Hdb |].
    apply Forall_app. split; [exact Hdb |].
    constructor; [| constructor].
    destruct Hs as [Hc Ht]. unfold row_ok. cbn [code target_url].
    now rewrite Hc, Ht.
  - now apply filter_table_ok.
  - now apply update_where_table_ok.
  - now apply update_where_table_ok.
Qed.

Lemma step_task_ok (t : task) (db : DB) :
  task_ok t ->
  task_ok (fst (step t db))
  /\ (table_ok db -> table_ok (snd (step t db))).
Proof.
  destruct t as [r | A s k]; cbn [step task_ok].
  - intros _. cbn. auto.
  - intros [Hs Hk]. pose proof (exec_table_ok s db Hs) as He.
    destruct (exec s db) as [a db']. cbn [fst snd] in *. auto.
Qed.

Lemma handler_task_ok (t : task) : is_handler t -> task_ok t.
Proof.
  intros (r & h & rnd & now & E).
  destruct r; cbn [route_task] in E; try discriminate E;
    injection E as <-.
  - destruct (create_link_shape (body_target_url h) (body_custom_code h)
                rnd now) as [-> | [-> | (c & t & -> & Hc & Ht)]];
      try exact I.
    cbn [check_then_insert task_ok stmt_ok]. split; [exact I |].
    intros [|i ids]; cbn [create_after_check task_ok stmt_ok]; [| exact I].
    split; [now split |]. now intros [l |].
  - unfold list_links.
    destruct (query_search h) as [[|c s] |]; cbn; auto.
  - cbn. split; [exact I |]. now intros [|x rs].
  - cbn. split; [exact I |]. now intros [|x rs].
  - cbn. split; [exact I |]. now intros [|x rs].
  - cbn [increment task_ok stmt_ok]. split; [exact I |].
    intros [|v vs]; cbn [increment_after_select task_ok stmt_ok];
      [exact I |].
    split; [exact I |]. now intros [|x rs].
Qed.

Lemma run_sched_table_ok (sched : list nat) :
  forall (pool : list task) (db : DB),
    Forall task_ok pool -> table_ok db ->
    table_ok (snd (run_sched sched pool db)).
Proof.
  induction sched as [|i sched IH]; intros pool db Hp Hdb;
    cbn [run_sched]; [exact Hdb |].
  destruct (nth_error pool i) as [t |] eqn:E; [| now apply IH].
  assert (Ht : task_ok t).
  { rewrite Forall_forall in Hp. apply Hp.
    eapply nth_error_In; eassumption. }
  destruct (step_task_ok t db Ht) as [Ht' Hdb'].
  destruct (step t db) as [t' db']. cbn [fst snd] in *.
  apply IH; [| now apply Hdb'].
  now apply replace_nth_Forall.
Qed.

(** X14.  Whatever requests with scalar custom codes (strings, booleans,
    null, absent, integers of magnitude at most 2^53 - 1) are in flight and
    however their statements interleave, a table in which every code
    matches [[a-zA-Z0-9]+] and every target URL starts with [http] stays
    such a table: for such requests no handler stores another kind of
    row. *)
Theorem stored_rows_stay_valid
    (sched : list nat) (pool : list task) (db : DB) :
  Forall is_scalar_handler pool ->
  table_ok db ->
  table_ok (snd (run_sched sched pool db)).
Proof.
  intros Hp Hdb. apply run_sched_table_ok; [| exact Hdb].
  eapply Forall_impl; [| exact Hp].
  intros t (r & h & rnd & now & _ & E). apply handler_task_ok.
  now exists r, h, rnd, now.
Qed.

Lemma stored_rows_stay_valid_witness :
  table_ok (snd (run_sched [0; 1; 0; 1; 2]%nat
                   (promo_requests ++ [redirect "promo" 3000])%list
                   example_db)).
Proof.
  apply (stored_rows_stay_valid [0; 1; 0; 1; 2]%nat).
  - repeat constructor.
    + exists RouteCreate,
        (mkRequest POST ["api"; "links"] (JStr "https://example.com")
                   (JStr "promo") None), (x00, x00, x00)%byte, 1000.
      split; reflexivity.
    + exists RouteCreate,
        (mkRequest POST ["api"; "links"] (JStr "https://example.org")
                   (JStr "promo") None), (x00, x00, x00)%byte, 1001.
      split; reflexivity.
    + exists (RouteRedirect "promo"),
        (mkRequest GET ["promo"] JUndefined JUndefined None),
        (x00, x00, x00)%byte, 3000.
      split; reflexivity.
  - repeat constructor.
Defined.

(** ** Codes stay distinct when requests do not overlap *)

Lemma not_in_codes (c : string) (db : DB) :
  code_in_use c db = false -> ~ In c (codes db).
Proof.
  unfold code_in_use, codes. intros H Hin.
  apply in_map_iff in Hin. destruct Hin as (l & <- & Hl).
  assert (existsb (has_code (code l)) (rows db) = true); [| congruence].
  apply existsb_exists. exists l. split; [exact Hl |].
  unfold has_code. apply String.eqb_refl.
Qed.

Lemma NoDup_codes_filter (p : Link -> bool) (rs : list Link) :
  NoDup (map code rs) -> NoDup (map code (filter p rs)).
Proof.
  induction rs as [|x rs IH]; cbn [map filter]; [auto |].
  intros H. inversion H as [|? ? Hx Hrs]; subst.
  destruct (p x); [| now apply IH].
  cbn [map]. constructor; [| now apply IH].
  intros Hin. apply Hx. apply in_map_iff in Hin.
  destruct Hin as (y & Ey & Hy). apply filter_In in Hy.
  apply in_map_iff. exists y. tauto.
Qed.

Lemma run_handler_codes_unique (r : route) (h : http_request)
    (rnd : bytes3) (now : Z) (t : task) (db : DB) :
  route_task r h rnd now = Some t ->
  NoDup (codes db) -> NoDup (codes (snd (run t db))).
Proof.
  intros E Hdb.
  destruct r; cbn [route_task] in E; try discriminate E;
    injection E as <-.
  - destruct (run_create_link_cases db (body_target_url h)
                (body_custom_code h) rnd now)
      as [(link & -> & Hfree & _) | [-> _]]; [| exact Hdb].
    unfold codes. cbn [snd rows]. rewrite map_app. cbn [map].
    apply NoDup_app; [exact Hdb | repeat constructor; intros [] |].
    intros a Ha [<- | []]. now apply (not_in_codes _ _ Hfree).
  - unfold list_links. destruct (query_search h) as [[|c s] |]; exact Hdb.
  - unfold get_link. cbn [run exec].
    now destruct (filter (has_code c) (rows db)).
  - unfold delete_link, codes. cbn [run exec].
    destruct (map id (filter (has_code c) (rows db)));
      cbn [run snd with_rows rows]; now apply NoDup_codes_filter.
  - unfold redirect, codes. cbn [run exec].
    destruct (map target_url (filter (has_code c) (rows db)));
      cbn [run snd with_rows rows]; now rewrite update_where_codes.
  - unfold increment, codes. cbn [run exec].
    destruct (map clicks (filter (has_code c) (rows db))) as [|v vs];
      cbn [increment_after_select run exec]; [exact Hdb |].
    destruct (map id (filter (has_code c) (rows db)));
      cbn [increment_after_update run snd with_rows rows];
      now rewrite update_where_codes.
Qed.

Lemma serve_codes_unique (h : http_request) (rnd : bytes3) (now : Z)
    (db : DB) :
  NoDup (codes db) -> NoDup (codes (snd (serve h rnd now db))).
Proof.
  intros Hdb. unfold serve.
  destruct (dispatch (method h) (path h)) as [r |]; [| exact Hdb].
  destruct (route_task r h rnd now) as [t |] eqn:E; [| exact Hdb].
  pose proof (run_handler_codes_unique r h rnd now t db E Hdb) as H.
  now destruct (run t db).
Qed.

(** X15.  When requests are served one after another, codes stay distinct:
    from a table without two links of the same code, no sequence of
    requests leads to a table with two, whether or not the [code] column
    has a unique key. *)
Theorem codes_stay_distinct_in_turn
    (reqs : list (http_request * bytes3 * Z)) (db : DB) :
  NoDup (codes db) -> NoDup (codes (serve_all reqs db)).
Proof.
  revert db. induction reqs as [|[[h rnd] now] reqs IH]; intros db Hdb;
    cbn [serve_all]; [exact Hdb |].
  apply IH. now apply serve_codes_unique.
Qed.

Lemma codes_stay_distinct_in_turn_witness :
  NoDup (codes
           (serve_all
              [(mkRequest POST ["api"; "links"] (JStr "https://example.com")
                          (JStr "promo") None, (x00, x00, x00)%byte, 1000);
               (mkRequest POST ["api"; "links"] (JStr "https://example.org")
                          (JStr "promo") None, (x00, x00, x00)%byte, 1001)]
              (mkDB false 1 []))).
Proof.
  apply (codes_stay_distinct_in_turn _ (mkDB false 1 [])). constructor.
Defined.

(** ** Concurrent creation requests for one custom code *)

Lemma count_replace {A : Type} (p : A -> bool) (i : nat) (old new : A)
    (l : list A) :
  nth_error l i = Some old ->
  (List.length (filter p (replace_nth i new l)) + Nat.b2n (p old)
   = List.length (filter p l) + Nat.b2n (p new))%nat.
Proof.
  revert i. induction l as [|y l IH]; intros [|i] H; cbn in H;
    try discriminate.
  - injection H as ->. cbn [replace_nth filter].
    destruct (p old), (p new); cbn [List.length Nat.b2n]; lia.
  - cbn [replace_nth filter]. specialize (IH i H).
    destruct (p y); cbn [List.length]; lia.
Qed.

Lemma rows_with_in_use (X : string) (db : DB) :
  code_in_use X db = true -> (1 <= List.length (rows_with X db))%nat.
Proof.
  intros H. unfold rows_with.
  destruct (filter_cons_existsb _ _ H) as (x & rest & ->). cbn. lia.
Qed.

Lemma rows_with_free (X : string) (db : DB) :
  code_in_use X db = false -> List.length (rows_with X db) = 0%nat.
Proof.
  intros H. unfold rows_with. now rewrite (filter_nil_existsb _ _ H).
Qed.

Lemma rows_with_new_row (X : string) (db : DB) (l : Link) :
  code l = X ->
  List.length (rows_with X (with_new_row db l))
  = S (List.length (rows_with X db)).
Proof.
  intros <-. unfold rows_with, with_new_row. cbn [rows].
  rewrite filter_app, length_app. cbn [filter]. unfold has_code at 2.
  rewrite String.eqb_refl. cbn. lia.
Qed.

Lemma step_create_start (X url : string) (rnd : bytes3) (now : Z) (db : DB) :
  step (create_task X ((url, rnd, now), CrStart)) db
  = (create_task X ((url, rnd, now),
                    if code_in_use X db then CrDone conflict_response
                    else CrChecked), db).
Proof.
  unfold code_in_use. cbn [create_task check_then_insert step exec].
  destruct (existsb (has_code X) (rows db)) eqn:E.
  - destruct (filter_cons_existsb _ _ E) as (x & rest & ->). reflexivity.
  - now rewrite (filter_nil_existsb _ _ E).
Qed.

Lemma step_create_checked (X url : string) (rnd : bytes3) (now : Z)
    (db : DB) :
  step (create_task X ((url, rnd, now), CrChecked)) db
  = if (code_unique db && code_in_use X db)%bool
    then (create_task X ((url, rnd, now), CrDone server_error), db)
    else (create_task X
            ((url, rnd, now),
             CrDone (mkResponse 201 (LinkJson (fresh_link db X url now)))),
          with_new_row db (fresh_link db X url now)).
Proof.
  unfold code_in_use. cbn [create_task step exec].
  now destruct (code_unique db && existsb (has_code X) (rows db))%bool.
Qed.

Lemma wins_replace (i : nat) (old new : (string * bytes3 * Z) * create_phase)
    (sts : list ((string * bytes3 * Z) * create_phase)) :
  nth_error sts i = Some old ->
  (wins (replace_nth i new sts)
   + Nat.b2n match create_result old with
             | Some r => created r
             | None => false
             end
   = wins sts
     + Nat.b2n match create_result new with
               | Some r => created r
               | None => false
               end)%nat.
Proof.
  intros E. unfold wins.
  exact (count_replace
           (fun st => match create_result st with
                      | Some r => created r
                      | None => false
                      end) i old new sts E).
Qed.

Lemma answered_replace (i : nat)
    (old new : (string * bytes3 * Z) * create_phase)
    (sts : list ((string * bytes3 * Z) * create_phase)) :
  nth_error sts i = Some old ->
  (answered (replace_nth i new sts)
   + Nat.b2n match create_result old with
             | Some _ => true
             | None => false
             end
   = answered sts
     + Nat.b2n match create_result new with
               | Some _ => true
               | None => false
               end)%nat.
Proof.
  intros E. unfold answered.
  exact (count_replace
           (fun st => match create_result st with
                      | Some _ => true
                      | None => false
                      end) i old new sts E).
Qed.

Lemma cr_inv_step (X : string) (u : bool) (i : nat)
    (sts : list ((string * bytes3 * Z) * create_phase)) (db : DB)
    (st : (string * bytes3 * Z) * create_phase) :
  cr_inv X u sts db ->
  nth_error sts i = Some st ->
  exists (st' : (string * bytes3 * Z) * create_phase) (db' : DB),
    step (create_task X st) db = (create_task X st', db')
    /\ cr_inv X u (replace_nth i st' sts) db'.
Proof.
  intros (Hu & Hrows & Hall & Hans1 & Hone) E.
  assert (Hst : create_phase_ok u st).
  { rewrite Forall_forall in Hall. apply Hall.
    eapply nth_error_In; eassumption. }
  destruct st as [[[url rnd] now] [| |r]].
  - (* about to check *)
    rewrite step_create_start.
    destruct (code_in_use X db) eqn:Hin.
    + eexists _, db. split; [reflexivity |].
      pose proof (rows_with_in_use X db Hin) as Hge.
      pose proof (wins_replace i _
                    ((url, rnd, now), CrDone conflict_response) sts E) as Hw.
      cbn -[wins answered] in Hw.
      split; [exact Hu | split; [lia | split; [| split]]].
      * apply replace_nth_Forall; [| exact Hall].
        unfold create_phase_ok, result_ok. cbn. auto.
      * intros _. lia.
      * intros Hu'. specialize (Hone Hu'). lia.
    + eexists _, db. split; [reflexivity |].
      pose proof (wins_replace i _ ((url, rnd, now), CrChecked) sts E) as Hw.
      pose proof (answered_replace i _ ((url, rnd, now), CrChecked) sts E)
        as Ha.
      cbn -[wins answered] in Hw, Ha.
      split; [exact Hu | split; [lia | split; [| split]]].
      * apply replace_nth_Forall; [exact I | exact Hall].
      * intros H0. assert (0 < answered sts)%nat as H1 by lia.
        specialize (Hans1 H1). lia.
      * intros Hu'. specialize (Hone Hu'). lia.
  - (* about to insert *)
    rewrite step_create_checked, Hu.
    destruct (u && code_in_use X db)%bool eqn:Hb.
    + apply andb_prop in Hb. destruct Hb as [Hu1 Hin].
      eexists _, db. split; [reflexivity |].
      pose proof (rows_with_in_use X db Hin) as Hge.
      pose proof (wins_replace i _ ((url, rnd, now), CrDone server_error)
                    sts E) as Hw.
      cbn -[wins answered] in Hw.
      split; [exact Hu | split; [lia | split; [| split]]].
      * apply replace_nth_Forall; [| exact Hall].
        unfold create_phase_ok, result_ok. cbn. auto.
      * intros _. lia.
      * intros Hu'. specialize (Hone Hu'). lia.
    + eexists _, _. split; [reflexivity |].
      pose proof (wins_replace i _
                    ((url, rnd, now),
                     CrDone (mkResponse 201
                               (LinkJson (fresh_link db X url now))))
                    sts E) as Hw.
      cbn -[wins answered] in Hw.
      pose proof (rows_with_new_row X db (fresh_link db X url now) eq_refl)
        as Hr.
      split; [exact Hu | split; [lia | split; [| split]]].
      * apply replace_nth_Forall; [| exact Hall].
        unfold create_phase_ok, result_ok. cbn. auto.
      * intros _. lia.
      * intros Hu'. rewrite Hu' in Hb. cbn [andb] in Hb.
        pose proof (rows_with_free X db Hb). lia.
  - (* answered *)
    exists ((url, rnd, now), CrDone r), db. split; [reflexivity |].
    pose proof (wins_replace i _ ((url, rnd, now), CrDone r) sts E) as Hw.
    pose proof (answered_replace i _ ((url, rnd, now), CrDone r) sts E)
      as Ha.
    cbn -[wins answered] in Hw, Ha.
    split; [exact Hu | split; [lia | split; [| split]]].
    + now apply replace_nth_Forall.
    + intros H0. assert (0 < answered sts)%nat as H1 by lia.
      specialize (Hans1 H1). lia.
    + intros Hu'. specialize (Hone Hu'). lia.
Qed.

Lemma run_sched_creates (X : string) (u : bool) (sched : list nat) :
  forall (sts : list ((string * bytes3 * Z) * create_phase)) (db : DB),
    cr_inv X u sts db ->
    exists (sts' : list ((string * bytes3 * Z) * create_phase)) (db' : DB),
      run_sched sched (map (create_task X) sts) db
      = (map (create_task X) sts', db')
      /\ cr_inv X u sts' db'
      /\ List.length sts' = List.length sts.
Proof.
  induction sched as [|i sched IH]; intros sts db Hinv.
  - exists sts, db. auto.
  - cbn [run_sched]. rewrite nth_error_map.
    destruct (nth_error sts i) as [st |] eqn:E; cbn [option_map].
    + destruct (cr_inv_step X u i sts db st Hinv E)
        as (st' & db' & Hstep & Hinv').
      rewrite Hstep, replace_nth_map.
      destruct (IH _ _ Hinv') as (sts' & db'' & Hrun & Hinv'' & Hlen).
      exists sts', db''. rewrite replace_nth_length in Hlen. auto.
    + now apply IH.
Qed.

Lemma creates_all_answered (X : string) (u : bool)
    (sts : list ((string * bytes3 * Z) * create_phase)) :
  forallb is_done (map (create_task X) sts) = true ->
  Forall (create_phase_ok u) sts ->
  exists rs : list Response,
    map (create_task X) sts = map Done rs
    /\ List.length rs = List.length sts
    /\ wins sts = List.length (filter created rs)
    /\ answered sts = List.length sts
    /\ Forall (result_ok u) rs.
Proof.
  unfold wins, answered.
  induction sts as [|[[[url rnd] now] p] sts IH]; intros Hd Hall.
  - exists []. repeat split. constructor.
  - cbn [map forallb] in Hd. apply andb_prop in Hd. destruct Hd as [H1 H2].
    inversion Hall as [|? ? Hp Hall']; subst.
    destruct p as [| |r]; try discriminate H1.
    destruct (IH H2 Hall') as (rs & Em & El & Ew & Ea & Hok).
    exists (r :: rs). cbn [map create_task filter create_result snd].
    rewrite Em. split; [reflexivity |].
    split; [cbn; lia |].
    split; [destruct (created r); cbn [List.length]; lia |].
    split; [cbn [List.length]; lia |].
    constructor; assumption.
Qed.

Lemma creates_as_phases (X : string) (reqs : list (string * bytes3 * Z)) :
  code_format_ok X = true ->
  Forall (fun r => startsWith (fst (fst r)) "http" = true) reqs ->
  map (create_custom X) reqs
  = map (create_task X) (map (fun r => (r, CrStart)) reqs).
Proof.
  intros Hfmt Hall. rewrite map_map.
  induction Hall as [|[[url rnd] now] reqs Hu _ IH]; [reflexivity |].
  cbn [map create_custom create_task]. cbn [fst] in Hu.
  rewrite (create_link_custom url X rnd now Hu (format_ok_nonempty X Hfmt)).
  now rewrite Hfmt, IH.
Qed.

Lemma cr_inv_initial (X : string) (db : DB)
    (reqs : list (string * bytes3 * Z)) :
  code_in_use X db = false ->
  cr_inv X (code_unique db) (map (fun r => (r, CrStart)) reqs) db.
Proof.
  intros Hfree.
  assert (W : wins (map (fun r => (r, CrStart)) reqs) = 0%nat).
  { clear Hfree. unfold wins. induction reqs; [reflexivity | exact IHreqs]. }
  assert (A : answered (map (fun r => (r, CrStart)) reqs) = 0%nat).
  { clear Hfree W. unfold answered.
    induction reqs; [reflexivity | exact IHreqs]. }
  unfold cr_inv. rewrite W, A, (rows_with_free X db Hfree).
  split; [reflexivity | split; [reflexivity | split; [| split]]];
    try lia.
  apply Forall_forall. intros st Hin. apply in_map_iff in Hin.
  destruct Hin as (r & <- & _). exact I.
Qed.

(** X16.  Creation requests for one free custom code, their statements
    interleaved in any way that lets all of them finish: every request is
    answered 201, 409 or 500; at least one is answered 201; and the table
    ends with as many rows of that code as there are 201 answers.  With a
    unique key on [code] exactly one request is answered 201; without one
    no request is answered 500. *)
Theorem concurrent_create_outcomes
    (X : string) (db : DB) (reqs : list (string * bytes3 * Z))
    (sched : list nat) (pool' : list task) (db' : DB) :
  code_format_ok X = true ->
  code_in_use X db = false ->
  reqs <> [] ->
  Forall (fun r => startsWith (fst (fst r)) "http" = true) reqs ->
  run_sched sched (map (create_custom X) reqs) db = (pool', db') ->
  forallb is_done pool' = true ->
  exists rs : list Response,
    pool' = map Done rs
    /\ List.length rs = List.length reqs
    /\ Forall (fun r => created r = true \/ r = conflict_response
                        \/ r = server_error) rs
    /\ (1 <= List.length (filter created rs))%nat
    /\ List.length (rows_with X db') = List.length (filter created rs)
    /\ (code_unique db = true ->
        List.length (filter created rs) = 1%nat)
    /\ (code_unique db = false ->
        Forall (fun r => created r = true \/ r = conflict_response) rs).
Proof.
  intros Hfmt Hfree Hne Hurls Hrun Hdone.
  rewrite (creates_as_phases X reqs Hfmt Hurls) in Hrun.
  destruct (run_sched_creates X (code_unique db) sched _ db
              (cr_inv_initial X db reqs Hfree))
    as (sts' & db'' & Hrun' & (Hu & Hrows & Hall & Hans & Hone) & Hlen).
  rewrite Hrun' in Hrun. injection Hrun as <- <-.
  destruct (creates_all_answered X (code_unique db) sts' Hdone Hall)
    as (rs & Em & El & Ew & Ea & Hok).
  rewrite length_map in Hlen.
  exists rs. split; [exact Em |].
  split; [lia |].
  split.
  { eapply Forall_impl; [| exact Hok].
    intros r [H | [H | [_ H]]]; auto. }
  assert (0 < answered sts')%nat as Hpos.
  { rewrite Ea, Hlen. destruct reqs; [contradiction | cbn; lia]. }
  specialize (Hans Hpos).
  split; [lia |].
  split; [lia |].
  split.
  - intros Hu'. specialize (Hone Hu'). lia.
  - intros Hu'. eapply Forall_impl; [| exact Hok].
    intros r [H | [H | [H _]]]; auto. congruence.
Qed.

Lemma concurrent_create_outcomes_witness :
  exists rs : list Response,
    fst (run_sched [0; 1; 0; 1]%nat
           (map (create_custom "promo")
                [("https://example.com", (x00, x00, x00)%byte, 1000);
                 ("https://example.org", (x00, x00, x00)%byte, 1001)])
           (mkDB true 1 []))
    = map Done rs
    /\ List.length (filter created rs) = 1%nat.
Proof.
  destruct (concurrent_create_outcomes "promo" (mkDB true 1 [])
              [("https://example.com", (x00, x00, x00)%byte, 1000);
               ("https://example.org", (x00, x00, x00)%byte, 1001)]
              [0; 1; 0; 1]%nat _ _
              eq_refl eq_refl ltac:(discriminate)
              ltac:(repeat constructor) eq_refl eq_refl)
    as (rs & H1 & _ & _ & _ & _ & H6 & _).
  exists rs. split; [exact H1 | exact (H6 eq_refl)].
Defined.

(** ** Numeric custom codes *)

Lemma decimal_digits_alnum (d : Decimal.uint) :
  string_forall Chars.is_alnum (NilEmpty.string_of_uint d) = true.
Proof. induction d; cbn [NilEmpty.string_of_uint string_forall]; auto. Qed.

Lemma decimal_alnum_plus (d : Decimal.uint) :
  alnum_plus (NilZero.string_of_uint d) = true.
Proof.
  pose proof (decimal_digits_alnum d) as H.
  destruct d; [reflexivity | exact H ..].
Qed.

(** X17.  The length limit of 8 applies to strings only: a custom code
    given as a positive JSON integer passes the format check whatever its
    number of digits, and the handler goes on to check and insert its
    decimal digits as the code. *)
Theorem numeric_custom_code_unbounded
    (n : Z) (url : string) (rnd : bytes3) (now : Z) :
  0 < n <= 9007199254740991 ->
  startsWith url "http" = true ->
  create_link (JStr url) (JNum n) rnd now
  = check_then_insert (js_to_string (JNum n)) url now
  /\ alnum_plus (js_to_string (JNum n)) = true.
Proof.
  intros [Hn _] Hu.
  assert (Ha : alnum_plus (js_to_string (JNum n)) = true).
  { destruct n as [|p|p]; try lia. apply decimal_alnum_plus. }
  split; [| exact Ha].
  unfold create_link. rewrite (target_checks url Hu).
  assert (truthy (JNum n) = true) as ->.
  { cbn. apply negb_true_iff, Z.eqb_neq. lia. }
  rewrite Ha. reflexivity.
Qed.

Lemma numeric_custom_code_unbounded_witness :
  create_link (JStr "https://example.com") (JNum 123456789012)
              (x00, x00, x00)%byte 1000
  = check_then_insert "123456789012" "https://example.com" 1000.
Proof.
  apply (numeric_custom_code_unbounded 123456789012 "https://example.com"
           (x00, x00, x00)%byte 1000); [lia | reflexivity].
Defined.
